(** * Effective-state resolver and rule-pause override state machine

    A shallow embedding of the client-side control logic of the garden
    dashboard ([src/App.tsx]): the time/range evaluator, the pause state,
    the override workflow, the resume gate and the reconciliation loop,
    followed by the properties the specification states about them. *)

From Stdlib Require Import ZArith List String Ascii Bool Lia DecimalString DecimalPos DecimalZ.
Import ListNotations.

Local Open Scope string_scope.
Local Open Scope Z_scope.

(** ** The JavaScript runtime functions the code relies on *)

Module JS.

(** A JavaScript number as the code uses it here: an integer, or [NaN].
    Minutes, percentages and durations are small integers, exactly
    representable as doubles. *)
Definition number := option Z.
Definition NaN : number := None.

Definition add (a b : number) : number :=
  match a, b with Some x, Some y => Some (x + y) | _, _ => NaN end.
Definition mul (a b : number) : number :=
  match a, b with Some x, Some y => Some (x * y) | _, _ => NaN end.

(** Comparisons: any comparison with [NaN] is false. *)
Definition lt (a b : number) : bool :=
  match a, b with Some x, Some y => x <? y | _, _ => false end.
Definition gt (a b : number) : bool := lt b a.
Definition ge (a b : number) : bool :=
  match a, b with Some x, Some y => y <=? x | _, _ => false end.

(** [x ?? d] on a value that may be [undefined]/[null]. *)
Definition nullish {A} (x : option A) (d : A) : A :=
  match x with Some v => v | None => d end.

(** [x || d] on a number: [0] and [NaN] are falsy. *)
Definition or_default (x : number) (d : Z) : Z :=
  match x with
  | Some v => if v =? 0 then d else v
  | None => d
  end.

(** [Math.max] and [Math.min] on the integers that reach them. *)
Definition Math_max (a b : Z) : Z := Z.max a b.
Definition Math_min (a b : Z) : Z := Z.min a b.

(** ASCII white space: TAB, LF, VT, FF, CR and SPACE. *)
Definition is_white (c : ascii) : bool :=
  let n := nat_of_ascii c in
  ((9 <=? n) && (n <=? 13))%nat || (n =? 32)%nat.

Definition is_digit (c : ascii) : bool :=
  let n := nat_of_ascii c in ((48 <=? n) && (n <=? 57))%nat.

Definition digit_val (c : ascii) : Z := Z.of_nat (nat_of_ascii c) - 48.

Fixpoint trimStart (s : string) : string :=
  match s with
  | String c r => if is_white c then trimStart r else s
  | EmptyString => EmptyString
  end.

Fixpoint trimEnd (s : string) : string :=
  match s with
  | String c r =>
      let r' := trimEnd r in
      if is_white c && (r' =? "")%string then "" else String c r'
  | EmptyString => EmptyString
  end.

(** [s.trim()] *)
Definition trim (s : string) : string := trimEnd (trimStart s).

(** [s.split(sep)] for a one-character separator; [[""]] on the empty
    string, as in JavaScript. *)
Fixpoint split (sep : ascii) (s : string) : list string :=
  match s with
  | EmptyString => [""]
  | String c r =>
      if Ascii.eqb c sep then "" :: split sep r
      else match split sep r with
           | h :: t => String c h :: t
           | [] => [String c ""]
           end
  end.

(** The value of a run of decimal digits, most significant first;
    [None] as soon as a character is not a digit. *)
Fixpoint digits (acc : Z) (s : string) : number :=
  match s with
  | EmptyString => Some acc
  | String c r => if is_digit c then digits (10 * acc + digit_val c) r else NaN
  end.

(** [Number(s)] on the strings the clock and the rules produce: white
    space is trimmed, the empty string is [0], a run of decimal digits is
    its value.  Signed, fractional, exponent, hexadecimal and [Infinity]
    literals never occur in an [HH:MM] field and are not modelled: on a
    text that holds one of them this function says [NaN] where JavaScript
    reads a number.  Every statement below that goes through [Number] is
    therefore restricted to two-digit fields, or to texts made of digits,
    colons and white space ([plainClockText]), where a piece is not a
    number exactly when white space stands between its digits. *)
Definition Number (s : string) : number := digits 0 (trim s).

(** The value of the longest prefix of decimal digits of [s]; [NaN] when
    [s] does not start with a digit ([seen] records that one was read). *)
Fixpoint leading_digits (acc : Z) (seen : bool) (s : string) : number :=
  match s with
  | String c r =>
      if is_digit c then leading_digits (10 * acc + digit_val c) true r
      else if seen then Some acc else NaN
  | EmptyString => if seen then Some acc else NaN
  end.

(** [parseInt(s, 10)]: leading white space is skipped, an optional sign
    is read, then the longest run of decimal digits; [NaN] when there is
    no digit.  ([-0] is [0] here: both are falsy.) *)
Definition parseInt (s : string) : number :=
  match trimStart s with
  | String "-" r =>
      match leading_digits 0 false r with Some v => Some (- v) | None => NaN end
  | String "+" r => leading_digits 0 false r
  | t => leading_digits 0 false t
  end.

Fixpoint startsWith (p s : string) : bool :=
  match p, s with
  | EmptyString, _ => true
  | String a p', String b s' => Ascii.eqb a b && startsWith p' s'
  | String _ _, EmptyString => false
  end.

(** [s.includes(p)] *)
Fixpoint includes (s p : string) : bool :=
  startsWith p s ||
  match s with
  | String _ r => includes r p
  | EmptyString => false
  end.

End JS.

(** ** Data model ([src/api/client.ts]) *)

Record LightRule := mkLightRule {
  l_id : string;
  l_enabled : option bool;
  l_paused : option bool;
  start_time : string;
  end_time : option string;
  (** typed [number]; the evaluator still guards it with [?? 0] *)
  brightness_pct : option Z
}.

Record PumpRule := mkPumpRule {
  p_id : string;
  p_enabled : option bool;
  p_paused : option bool;
  time : string;
  duration_minutes : Z
}.

(** [ScheduleRule = (LightRule | PumpRule) & { id: string }], tagged by
    its [type] field. *)
Inductive ScheduleRule :=
| Light (r : LightRule)
| Pump (r : PumpRule).

(** ** Time/range evaluator *)

(** Minutes since midnight for ["HH:MM"]. *)
Definition hhmmToMinutes (hhmm : string) : JS.number :=
  let parts := map JS.Number (JS.split ":" (JS.trim hhmm)) in
  let h := nth_error parts 0 in
  let m := nth_error parts 1 in
  JS.add (JS.mul (JS.nullish h (Some 0)) (Some 60)) (JS.nullish m (Some 0)).

(** True if [now] is inside the rule's range; handles overnight ranges. *)
Definition isTimeInRange (now start : string) (end_ : option string) : bool :=
  match end_ with
  | None => (now =? start)%string
  | Some e =>
      if (e =? "")%string then (now =? start)%string
      else
        let nowM := hhmmToMinutes now in
        let startM := hhmmToMinutes start in
        let endM := hhmmToMinutes e in
        if JS.gt endM startM then JS.ge nowM startM && JS.lt nowM endM
        else JS.ge nowM startM || JS.lt nowM endM
  end.

(** The loop's guard: the rule is a light rule, [enabled !== false], and
    [paused] is not truthy. *)
Definition lightRuleConsidered (r : LightRule) : bool :=
  negb (match l_enabled r with Some false => true | _ => false end)
  && negb (JS.nullish (l_paused r) false).

(** One iteration of the loop over the rules. *)
Definition effectiveStep (now : string) (maxBrightness : option Z) (r : ScheduleRule)
  : option Z :=
  match r with
  | Pump _ => maxBrightness
  | Light r =>
      if negb (lightRuleConsidered r) then maxBrightness
      else
        let end_ := end_time r in
        if isTimeInRange now (start_time r) end_ then
          let b := JS.nullish (brightness_pct r) 0 in
          match maxBrightness with
          | None => Some b
          | Some m => Some (JS.Math_max m b)
          end
        else maxBrightness
  end.

(** Effective brightness that the light rules want at [now] (the reading of
    [getCurrentCentralHHMM()]), or [None] if no rule is active. *)
Definition getEffectiveLightBrightnessFromRules (now : string) (rules : list ScheduleRule)
  : option Z :=
  fold_left (effectiveStep now) rules None.

(** ** The remote device's API ([api] in the client module) *)

Inductive Call :=
| GetDistance | GetHumidity | GetTemperature | GetPcbTemp
| GetLightBrightness | GetPumpSpeed | GetPumpStats
| LightOn | LightOff | SetLightBrightness (value : Z)
| PumpOn | PumpOff | SetPumpSpeed (value : Z)
| GetRules
| PauseLightRulesForMinutes (minutes : Z)
| PausePumpRulesForMinutes (minutes : Z)
| SetManualPumpOffInMinutes (minutes : Z)
| ResumeLightRules | ResumePumpRules.

(** What a [catch (e)] clause receives: an [Error] with its message, or any
    other thrown value. *)
Inductive Thrown :=
| ErrorObj (message : string)
| NotAnError.

Record PumpStats := mkPumpStats { speed : option Z; power : option Z }.

Record RulesResponse := mkRulesResponse {
  res_rules : option (list ScheduleRule);
  light_rules_paused_until : option string;
  pump_rules_paused_until : option string
}.

(** The JSON object a request resolves to.  A field that the object does
    not carry reads as [undefined] ([None]). *)
Inductive Payload :=
| Reading (v : option Z)
| Stats (s : PumpStats)
| RulesRes (r : RulesResponse)
| Message.

Inductive Response :=
| Rejects (e : Thrown)
| Resolves (p : Payload).

(** Everything outside the client: the device's answers and the clock, each
    a function of the requests issued so far, and the runtime's date
    parser ([None] is an invalid date). *)
Record World := mkWorld {
  api : list Call -> Call -> Response;
  centralHHMM : list Call -> string;
  dateNow : list Call -> Z;
  dateParse : string -> option Z
}.

(** ** Client state (the [useState]/[useRef] cells of [App])

    A handler is followed from its start to its end, its setters taking
    effect in program order; what a closure read at render time and uses
    later is carried by the closure (see [Action]). *)

Record SensorState := mkSensorState {
  distance : option Z;
  humidity : option Z;
  temperature : option Z;
  pcbTemp : option Z;
  lightBrightness : option Z;
  pumpSpeed : option Z;
  pumpStats : option PumpStats
}.

Inductive OnOff := On | Off.
Inductive ActuatorClass := LightClass | PumpClass.

Record LightOverrideModal := mkLightOverrideModal {
  lo_open : bool; lo_action : OnOff; lo_minutes : string
}.

Record PumpManualModal := mkPumpManualModal {
  pm_open : bool; pm_minutes : string
}.

Record ResumeModal := mkResumeModal {
  rm_open : bool; rm_type : ActuatorClass; rm_pausedUntil : string
}.

(** The closures handed to the resume gate at its five call sites, each
    with the render-time values it captures. *)
Inductive Action :=
| HandleLightOn (rules : list ScheduleRule)
| HandleLightOff (rules : list ScheduleRule)
| HandleLightBrightness (value : Z)
| HandlePumpOn (pumpSpeed : option Z)
| HandlePumpOff.

Record App := mkApp {
  token : option string;
  loading : bool;
  error : option string;
  lastUpdate : option Z;
  state : SensorState;
  lightBrightnessSlider : Z;
  rules : list ScheduleRule;
  rulesError : option string;
  rulesLoading : bool;
  lightOverrideModal : LightOverrideModal;
  pumpManualModal : PumpManualModal;
  lightRulesPausedUntil : option string;
  pumpRulesPausedUntil : option string;
  resumeModal : ResumeModal;
  pendingResumeActionRef : option Action
}.

Definition setToken (v : option string) (a : App) : App :=
  mkApp v (loading a) (error a) (lastUpdate a) (state a) (lightBrightnessSlider a)
    (rules a) (rulesError a) (rulesLoading a) (lightOverrideModal a) (pumpManualModal a)
    (lightRulesPausedUntil a) (pumpRulesPausedUntil a) (resumeModal a)
    (pendingResumeActionRef a).
Definition setLoading (v : bool) (a : App) : App :=
  mkApp (token a) v (error a) (lastUpdate a) (state a) (lightBrightnessSlider a)
    (rules a) (rulesError a) (rulesLoading a) (lightOverrideModal a) (pumpManualModal a)
    (lightRulesPausedUntil a) (pumpRulesPausedUntil a) (resumeModal a)
    (pendingResumeActionRef a).
Definition setError (v : option string) (a : App) : App :=
  mkApp (token a) (loading a) v (lastUpdate a) (state a) (lightBrightnessSlider a)
    (rules a) (rulesError a) (rulesLoading a) (lightOverrideModal a) (pumpManualModal a)
    (lightRulesPausedUntil a) (pumpRulesPausedUntil a) (resumeModal a)
    (pendingResumeActionRef a).
Definition setLastUpdate (v : option Z) (a : App) : App :=
  mkApp (token a) (loading a) (error a) v (state a) (lightBrightnessSlider a)
    (rules a) (rulesError a) (rulesLoading a) (lightOverrideModal a) (pumpManualModal a)
    (lightRulesPausedUntil a) (pumpRulesPausedUntil a) (resumeModal a)
    (pendingResumeActionRef a).
Definition setState (v : SensorState) (a : App) : App :=
  mkApp (token a) (loading a) (error a) (lastUpdate a) v (lightBrightnessSlider a)
    (rules a) (rulesError a) (rulesLoading a) (lightOverrideModal a) (pumpManualModal a)
    (lightRulesPausedUntil a) (pumpRulesPausedUntil a) (resumeModal a)
    (pendingResumeActionRef a).
Definition setLightBrightnessSlider (v : Z) (a : App) : App :=
  mkApp (token a) (loading a) (error a) (lastUpdate a) (state a) v
    (rules a) (rulesError a) (rulesLoading a) (lightOverrideModal a) (pumpManualModal a)
    (lightRulesPausedUntil a) (pumpRulesPausedUntil a) (resumeModal a)
    (pendingResumeActionRef a).
Definition setRules (v : list ScheduleRule) (a : App) : App :=
  mkApp (token a) (loading a) (error a) (lastUpdate a) (state a) (lightBrightnessSlider a)
    v (rulesError a) (rulesLoading a) (lightOverrideModal a) (pumpManualModal a)
    (lightRulesPausedUntil a) (pumpRulesPausedUntil a) (resumeModal a)
    (pendingResumeActionRef a).
Definition setRulesError (v : option string) (a : App) : App :=
  mkApp (token a) (loading a) (error a) (lastUpdate a) (state a) (lightBrightnessSlider a)
    (rules a) v (rulesLoading a) (lightOverrideModal a) (pumpManualModal a)
    (lightRulesPausedUntil a) (pumpRulesPausedUntil a) (resumeModal a)
    (pendingResumeActionRef a).
Definition setRulesLoading (v : bool) (a : App) : App :=
  mkApp (token a) (loading a) (error a) (lastUpdate a) (state a) (lightBrightnessSlider a)
    (rules a) (rulesError a) v (lightOverrideModal a) (pumpManualModal a)
    (lightRulesPausedUntil a) (pumpRulesPausedUntil a) (resumeModal a)
    (pendingResumeActionRef a).
Definition setLightOverrideModal (v : LightOverrideModal) (a : App) : App :=
  mkApp (token a) (loading a) (error a) (lastUpdate a) (state a) (lightBrightnessSlider a)
    (rules a) (rulesError a) (rulesLoading a) v (pumpManualModal a)
    (lightRulesPausedUntil a) (pumpRulesPausedUntil a) (resumeModal a)
    (pendingResumeActionRef a).
Definition setPumpManualModal (v : PumpManualModal) (a : App) : App :=
  mkApp (token a) (loading a) (error a) (lastUpdate a) (state a) (lightBrightnessSlider a)
    (rules a) (rulesError a) (rulesLoading a) (lightOverrideModal a) v
    (lightRulesPausedUntil a) (pumpRulesPausedUntil a) (resumeModal a)
    (pendingResumeActionRef a).
Definition setLightRulesPausedUntil (v : option string) (a : App) : App :=
  mkApp (token a) (loading a) (error a) (lastUpdate a) (state a) (lightBrightnessSlider a)
    (rules a) (rulesError a) (rulesLoading a) (lightOverrideModal a) (pumpManualModal a)
    v (pumpRulesPausedUntil a) (resumeModal a)
    (pendingResumeActionRef a).
Definition setPumpRulesPausedUntil (v : option string) (a : App) : App :=
  mkApp (token a) (loading a) (error a) (lastUpdate a) (state a) (lightBrightnessSlider a)
    (rules a) (rulesError a) (rulesLoading a) (lightOverrideModal a) (pumpManualModal a)
    (lightRulesPausedUntil a) v (resumeModal a)
    (pendingResumeActionRef a).
Definition setResumeModal (v : ResumeModal) (a : App) : App :=
  mkApp (token a) (loading a) (error a) (lastUpdate a) (state a) (lightBrightnessSlider a)
    (rules a) (rulesError a) (rulesLoading a) (lightOverrideModal a) (pumpManualModal a)
    (lightRulesPausedUntil a) (pumpRulesPausedUntil a) v
    (pendingResumeActionRef a).
Definition setPendingResumeActionRef (v : option Action) (a : App) : App :=
  mkApp (token a) (loading a) (error a) (lastUpdate a) (state a) (lightBrightnessSlider a)
    (rules a) (rulesError a) (rulesLoading a) (lightOverrideModal a) (pumpManualModal a)
    (lightRulesPausedUntil a) (pumpRulesPausedUntil a) (resumeModal a) v.

(** ** Running a handler

    A handler runs against the world, the requests issued so far and the
    client state; it ends by returning or by throwing, having issued more
    requests and updated the state.  Each [await] is a sequencing point. *)

Inductive Outcome (A : Type) :=
| Returned (a : A)
| Threw (e : Thrown).
Arguments Returned {A} a.
Arguments Threw {A} e.

Record Run (A : Type) := mkRun {
  outcome : Outcome A;
  calls : list Call;
  client : App
}.
Arguments mkRun {A} outcome calls client.
Arguments outcome {A} r.
Arguments calls {A} r.
Arguments client {A} r.

Definition M (A : Type) : Type := World -> list Call -> App -> Run A.

Definition ret {A} (a : A) : M A := fun _ tr st => mkRun (Returned a) tr st.

Definition bind {A B} (m : M A) (k : A -> M B) : M B :=
  fun w tr st =>
    let r := m w tr st in
    match outcome r with
    | Returned a => k a w (calls r) (client r)
    | Threw e => mkRun (Threw e) (calls r) (client r)
    end.

Declare Scope handler_scope.
Delimit Scope handler_scope with handler.
Notation "x <- m ;; k" := (bind m (fun x => k))
  (at level 61, m at next level, right associativity) : handler_scope.
Notation "m ;; k" := (bind m (fun _ => k))
  (at level 61, right associativity) : handler_scope.
Local Open Scope handler_scope.

(** [try { body } catch (e) { handler e }] *)
Definition tryCatch {A} (body : M A) (handler : Thrown -> M A) : M A :=
  fun w tr st =>
    let r := body w tr st in
    match outcome r with
    | Returned a => r
    | Threw e => handler e w (calls r) (client r)
    end.

(** The callback [App] registers with [setAuthCallbacks]: [setToken(null)]
    (and the stored token is removed). *)
Definition onUnauthorized (a : App) : App := setToken None a.

(** Did [request] throw [e] from its 401 branch?  That branch throws
    [new Error(`API 401: ...`)] after calling [onUnauthorized]; its other
    throws are [`API <status>: ...`] for another status, and whatever
    [fetch] or [res.json()] rejected with, none of which starts that way
    (see [request] below, where the body of a refusal is taken to be
    readable). *)
Definition isUnauthorized (e : Thrown) : bool :=
  match e with
  | ErrorObj message => JS.startsWith "API 401: " message
  | NotAnError => false
  end.

(** The client once a request has been refused with [e]: logged out when
    the refusal was a 401. *)
Definition refused (e : Thrown) (a : App) : App :=
  if isUnauthorized e then onUnauthorized a else a.

(** [await api.c()]: every [api] function goes through [request], which
    runs [onUnauthorized] before it throws on a 401. *)
Definition call (c : Call) : M Payload :=
  fun w tr st =>
    match api w tr c with
    | Resolves p => mkRun (Returned p) (tr ++ [c]) st
    | Rejects e => mkRun (Threw e) (tr ++ [c]) (refused e st)
    end.

(** A state setter. *)
Definition modify (f : App -> App) : M unit :=
  fun _ tr st => mkRun (Returned tt) tr (f st).

Definition get : M App := fun _ tr st => mkRun (Returned st) tr st.

(** [new Date()], in milliseconds. *)
Definition newDate : M Z := fun w tr st => mkRun (Returned (dateNow w tr)) tr st.

(** Current time in Central as ["HH:MM"]. *)
Definition getCurrentCentralHHMM : M string :=
  fun w tr st => mkRun (Returned (centralHHMM w tr)) tr st.

(** [e instanceof Error ? e.message : fallback] *)
Definition messageOr (e : Thrown) (fallback : string) : string :=
  match e with
  | ErrorObj m => m
  | NotAnError => fallback
  end.

(** ** Pause state *)

Definition isPausedInFuture (parse : string -> option Z) (now : Z)
  (pausedUntil : option string) : bool :=
  match pausedUntil with
  | None => false
  | Some s =>
      if (s =? "")%string then false
      else JS.gt (parse s) (Some now)
  end.

Definition pausedInFuture (pausedUntil : option string) : M bool :=
  fun w tr st =>
    mkRun (Returned (isPausedInFuture (dateParse w) (dateNow w tr) pausedUntil)) tr st.

(** ** Refreshing readings and rules *)

(** One element of the [Promise.all] array: the request, the field read
    off its result, and [.catch(() => null)]. *)
Definition reading (c : Call) : M (option Z) :=
  tryCatch
    (p <- call c ;;
     ret (match p with Reading v => v | _ => None end))
    (fun _ => ret None).

Definition readStats : M (option PumpStats) :=
  tryCatch
    (p <- call GetPumpStats ;;
     ret (match p with
          | Stats s => Some s
          | _ => Some (mkPumpStats None None)
          end))
    (fun _ => ret None).

Definition fetchAll : M unit :=
  modify (setError None) ;;
  tryCatch
    (distance <- reading GetDistance ;;
     humidity <- reading GetHumidity ;;
     temperature <- reading GetTemperature ;;
     pcbTemp <- reading GetPcbTemp ;;
     lightBrightness <- reading GetLightBrightness ;;
     pumpSpeed <- reading GetPumpSpeed ;;
     pumpStats <- readStats ;;
     modify (setState
       (mkSensorState distance humidity temperature pcbTemp lightBrightness
          pumpSpeed pumpStats)) ;;
     match lightBrightness with
     | Some v => modify (setLightBrightnessSlider v)
     | None => ret tt
     end ;;
     d <- newDate ;;
     modify (setLastUpdate (Some d)))
    (fun e => modify (setError (Some (messageOr e "Failed to fetch")))) ;;
  modify (setLoading false).

Definition unreachableMessage : string :=
  "Couldn’t reach the device. Make sure you’re on the same network as the Pi and it’s running the latest code.".

(** The message the [catch] clause of [fetchRules] shows; [msg || d] falls
    back on the empty message. *)
Definition rulesErrorMessage (e : Thrown) : string :=
  let msg := messageOr e "" in
  let isNetwork :=
    (msg =? "Failed to fetch")%string
    || JS.includes msg "NetworkError"
    || JS.includes msg "load failed" in
  if isNetwork then unreachableMessage
  else if (msg =? "")%string then "Couldn’t load rules." else msg.

Definition fetchRules : M unit :=
  modify (setRulesError None) ;;
  modify (setRulesLoading true) ;;
  tryCatch
    (p <- call GetRules ;;
     let res :=
       match p with
       | RulesRes r => r
       | _ => mkRulesResponse None None None
       end in
     modify (setRules (JS.nullish (res_rules res) [])) ;;
     modify (setLightRulesPausedUntil (light_rules_paused_until res)) ;;
     modify (setPumpRulesPausedUntil (pump_rules_paused_until res)))
    (fun e =>
       modify (setRules []) ;;
       modify (setLightRulesPausedUntil None) ;;
       modify (setPumpRulesPausedUntil None) ;;
       modify (setRulesError (Some (rulesErrorMessage e)))) ;;
  modify (setRulesLoading false).

(** ** Manual actions *)

Definition handleLightOn (rules : list ScheduleRule) : M unit :=
  now <- getCurrentCentralHHMM ;;
  let effectiveBrightness := getEffectiveLightBrightnessFromRules now rules in
  match effectiveBrightness with
  | Some 0 => modify (setLightOverrideModal (mkLightOverrideModal true On "60"))
  | _ =>
      tryCatch
        (call LightOn ;; fetchAll)
        (fun e => modify (setError (Some (messageOr e "Light on failed"))))
  end.

Definition handleLightOff (rules : list ScheduleRule) : M unit :=
  now <- getCurrentCentralHHMM ;;
  let rulesWantOn :=
    0 <? JS.nullish (getEffectiveLightBrightnessFromRules now rules) 0 in
  if rulesWantOn then
    modify (setLightOverrideModal (mkLightOverrideModal true Off "60"))
  else
    tryCatch
      (call LightOff ;; fetchAll)
      (fun e => modify (setError (Some (messageOr e "Light off failed")))).

Definition handleLightBrightness (value : Z) : M unit :=
  modify (setLightBrightnessSlider value) ;;
  tryCatch
    (call (SetLightBrightness value) ;; fetchAll)
    (fun e => modify (setError (Some (messageOr e "Set brightness failed")))).

Definition handlePumpOn (pumpSpeed : option Z) : M unit :=
  if JS.nullish pumpSpeed 0 <=? 0 then
    modify (setPumpManualModal (mkPumpManualModal true "5"))
  else
    tryCatch
      (call (SetPumpSpeed 100) ;; call PumpOn ;; fetchAll)
      (fun e => modify (setError (Some (messageOr e "Pump on failed")))).

Definition handlePumpOff : M unit :=
  tryCatch
    (call PumpOff ;; fetchAll)
    (fun e => modify (setError (Some (messageOr e "Pump off failed")))).

(** Calling a captured closure. *)
Definition runAction (action : Action) : M unit :=
  match action with
  | HandleLightOn rules => handleLightOn rules
  | HandleLightOff rules => handleLightOff rules
  | HandleLightBrightness v => handleLightBrightness v
  | HandlePumpOn speed => handlePumpOn speed
  | HandlePumpOff => handlePumpOff
  end.

(** ** Override workflow *)

Definition lightOverrideMinutes (input : string) : Z :=
  JS.Math_max 1 (JS.Math_min 1440 (JS.or_default (JS.parseInt input) 60)).

Definition pumpManualMinutes (input : string) : Z :=
  JS.Math_max 1 (JS.Math_min 120 (JS.or_default (JS.parseInt input) 5)).

Definition confirmLightOverride : M unit :=
  st <- get ;;
  let minutes := lightOverrideMinutes (lo_minutes (lightOverrideModal st)) in
  let action := lo_action (lightOverrideModal st) in
  modify (fun a =>
    setLightOverrideModal
      (mkLightOverrideModal false (lo_action (lightOverrideModal a))
         (lo_minutes (lightOverrideModal a))) a) ;;
  tryCatch
    (call (PauseLightRulesForMinutes minutes) ;;
     fetchRules ;;
     match action with
     | On => call LightOn
     | Off => call LightOff
     end ;;
     fetchAll)
    (fun e => modify (setError (Some (messageOr e "Override failed")))).

Definition cancelLightOverride : M unit :=
  modify (fun a =>
    setLightOverrideModal
      (mkLightOverrideModal false (lo_action (lightOverrideModal a))
         (lo_minutes (lightOverrideModal a))) a).

Definition confirmPumpManual : M unit :=
  st <- get ;;
  let minutes := pumpManualMinutes (pm_minutes (pumpManualModal st)) in
  modify (setPumpManualModal (mkPumpManualModal false "5")) ;;
  tryCatch
    (call (PausePumpRulesForMinutes minutes) ;;
     call (SetManualPumpOffInMinutes minutes) ;;
     fetchRules ;;
     call (SetPumpSpeed 100) ;;
     call PumpOn ;;
     fetchAll)
    (fun e => modify (setError (Some (messageOr e "Manual watering failed")))).

Definition cancelPumpManual : M unit :=
  modify (setPumpManualModal (mkPumpManualModal false "5")).

(** ** Resume gate *)

Definition runOrShowResumeLight (action : Action) : M unit :=
  st <- get ;;
  paused <- pausedInFuture (lightRulesPausedUntil st) ;;
  if paused then
    modify (setResumeModal
      (mkResumeModal true LightClass (JS.nullish (lightRulesPausedUntil st) ""))) ;;
    modify (setPendingResumeActionRef (Some action))
  else runAction action.

Definition runOrShowResumePump (action : Action) : M unit :=
  st <- get ;;
  paused <- pausedInFuture (pumpRulesPausedUntil st) ;;
  if paused then
    modify (setResumeModal
      (mkResumeModal true PumpClass (JS.nullish (pumpRulesPausedUntil st) ""))) ;;
    modify (setPendingResumeActionRef (Some action))
  else runAction action.

Definition closeModal (a : App) : App :=
  setResumeModal
    (mkResumeModal false (rm_type (resumeModal a)) (rm_pausedUntil (resumeModal a))) a.

Definition runPending : M unit :=
  st <- get ;;
  let fn := pendingResumeActionRef st in
  modify (setPendingResumeActionRef None) ;;
  match fn with
  | Some f => runAction f
  | None => ret tt
  end.

(** [confirmResumeModal(resume)].  The [return] inside the [catch] clause
    skips [runPending]: the flag says whether the clause was taken. *)
Definition confirmResumeModal (resume : bool) : M unit :=
  st <- get ;;
  let type := rm_type (resumeModal st) in
  modify closeModal ;;
  proceed <-
    (if resume then
       tryCatch
         (match type with
          | LightClass => call ResumeLightRules
          | PumpClass => call ResumePumpRules
          end ;;
          fetchRules ;;
          ret true)
         (fun e =>
            modify (setError (Some (messageOr e "Failed to resume rules"))) ;;
            ret false)
     else ret true) ;;
  if proceed : bool then runPending else ret tt.

Definition closeResumeModal : M unit :=
  modify closeModal ;;
  modify (setPendingResumeActionRef None).

(** The five controls that go through the gate, each building its closure
    from the current render. *)
Definition clickLightOn : M unit :=
  st <- get ;; runOrShowResumeLight (HandleLightOn (rules st)).
Definition clickLightOff : M unit :=
  st <- get ;; runOrShowResumeLight (HandleLightOff (rules st)).
Definition changeLightSlider (v : Z) : M unit :=
  runOrShowResumeLight (HandleLightBrightness v).
Definition clickPumpOn : M unit :=
  st <- get ;; runOrShowResumePump (HandlePumpOn (pumpSpeed (state st))).
Definition clickPumpOff : M unit :=
  runOrShowResumePump HandlePumpOff.

(** ** Reconciliation loop *)

(** What the polling effect hands to [setInterval]: the period, and the
    [paused] flag its tick closes over. *)
Record Timer := mkTimer { intervalMs : Z; tickPaused : bool }.

(** The tick. *)
Definition pollingTick (paused : bool) : M unit :=
  fetchAll ;;
  if paused then fetchRules else ret tt.

(** The effect body; [None] when there is no token (no timer is set). *)
Definition pollingEffect : M (option Timer) :=
  st <- get ;;
  match token st with
  | None => ret None
  | Some t =>
      if (t =? "")%string then ret None
      else
        fetchAll ;;
        l <- pausedInFuture (lightRulesPausedUntil st) ;;
        p <- pausedInFuture (pumpRulesPausedUntil st) ;;
        let paused := l || p in
        let intervalMs := if paused then 5000 else 30000 in
        ret (Some (mkTimer intervalMs paused))
  end.

(** Running a handler from scratch: no request issued yet. *)
Definition exec {A} (m : M A) (w : World) (st : App) : Run A := m w [] st.

(** ** Times of day, for stating the evaluator's properties *)

Record Time := mkTime { hour : Z; minute : Z }.

Definition validTime (t : Time) : Prop :=
  0 <= hour t < 24 /\ 0 <= minute t < 60.

(** Chronological order within a day. *)
Definition timeLt (a b : Time) : Prop :=
  hour a < hour b \/ (hour a = hour b /\ minute a < minute b).
Definition timeLe (a b : Time) : Prop := timeLt a b \/ a = b.

Definition digitChar (d : Z) : ascii := ascii_of_nat (Z.to_nat (48 + d)).

Definition twoDigits (n : Z) : string :=
  String (digitChar (n / 10)) (String (digitChar (n mod 10)) EmptyString).

(** The ["HH:MM"] string of a time. *)
Definition hhmm (t : Time) : string :=
  (twoDigits (hour t) ++ ":" ++ twoDigits (minute t))%string.

(** ** The instant a pause field denotes *)

(** [None] for an absent or empty field and for an unparsable one. *)
Definition pauseInstant (parse : string -> option Z) (pausedUntil : option string)
  : option Z :=
  match pausedUntil with
  | None => None
  | Some s => if (s =? "")%string then None else parse s
  end.

(** ** The light rules that are active at a given time *)

(** A light rule counts at [now]: considered by the loop, and its range
    matches. *)
Definition lightRuleActive (now : string) (r : LightRule) : bool :=
  lightRuleConsidered r && isTimeInRange now (start_time r) (end_time r).

(** The brightness values of the active light rules, in rule order. *)
Definition activeBrightness (now : string) (rules : list ScheduleRule) : list Z :=
  flat_map
    (fun r =>
       match r with
       | Light l => if lightRuleActive now l then [JS.nullish (brightness_pct l) 0] else []
       | Pump _ => []
       end)
    rules.

(** [m] is the maximum of [bs]. *)
Definition isMaximum (m : Z) (bs : list Z) : Prop :=
  In m bs /\ forall b, In b bs -> b <= m.

(** ** What a refresh reads *)

(** The value [reading c] yields when issued after [tr]: the field of the
    answer, or null when the request fails. *)
Definition readValue (w : World) (tr : list Call) (c : Call) : option Z :=
  match api w tr c with
  | Resolves (Reading v) => v
  | _ => None
  end.

Definition statsValue (w : World) (tr : list Call) : option PumpStats :=
  match api w tr GetPumpStats with
  | Resolves (Stats s) => Some s
  | Resolves _ => Some (mkPumpStats None None)
  | Rejects _ => None
  end.

(** The sensor snapshot a refresh started after [tr] builds. *)
Definition freshReadings (w : World) (tr : list Call) : SensorState :=
  mkSensorState
    (readValue w tr GetDistance)
    (readValue w (tr ++ [GetDistance]) GetHumidity)
    (readValue w (tr ++ [GetDistance; GetHumidity]) GetTemperature)
    (readValue w (tr ++ [GetDistance; GetHumidity; GetTemperature]) GetPcbTemp)
    (readValue w (tr ++ [GetDistance; GetHumidity; GetTemperature; GetPcbTemp])
       GetLightBrightness)
    (readValue w
       (tr ++ [GetDistance; GetHumidity; GetTemperature; GetPcbTemp; GetLightBrightness])
       GetPumpSpeed)
    (statsValue w
       (tr ++ [GetDistance; GetHumidity; GetTemperature; GetPcbTemp; GetLightBrightness;
               GetPumpSpeed])).

(** ** Reading a trace *)


Definition isResumeCall (c : Call) : bool :=
  match c with
  | ResumeLightRules | ResumePumpRules => true
  | _ => false
  end.

(** The seven reads of [fetchAll], in the order they are issued. *)
Definition readingCalls : list Call :=
  [GetDistance; GetHumidity; GetTemperature; GetPcbTemp; GetLightBrightness;
   GetPumpSpeed; GetPumpStats].


(** The client once the request [c], issued after [tr], has settled: as it
    was, or logged out by a 401. *)
Definition settled (w : World) (tr : list Call) (c : Call) (st : App) : App :=
  match api w tr c with
  | Rejects e => refused e st
  | Resolves _ => st
  end.

(** The client once the seven reads of a refresh have settled. *)
Definition afterReads (w : World) (tr : list Call) (st : App) : App :=
  settled w
    (tr ++ [GetDistance; GetHumidity; GetTemperature; GetPcbTemp; GetLightBrightness;
            GetPumpSpeed]) GetPumpStats
    (settled w
       (tr ++ [GetDistance; GetHumidity; GetTemperature; GetPcbTemp; GetLightBrightness])
       GetPumpSpeed
       (settled w (tr ++ [GetDistance; GetHumidity; GetTemperature; GetPcbTemp])
          GetLightBrightness
          (settled w (tr ++ [GetDistance; GetHumidity; GetTemperature]) GetPcbTemp
             (settled w (tr ++ [GetDistance; GetHumidity]) GetTemperature
                (settled w (tr ++ [GetDistance]) GetHumidity
                   (settled w tr GetDistance st)))))).

(** The client state once a refresh started after [tr] has completed. *)
Definition afterFetchAll (w : World) (tr : list Call) (st : App) : App :=
  let fresh := freshReadings w tr in
  let shown := setState fresh (afterReads w tr (setError None st)) in
  let slid :=
    match lightBrightness fresh with
    | Some v => setLightBrightnessSlider v shown
    | None => shown
    end in
  setLoading false (setLastUpdate (Some (dateNow w (tr ++ readingCalls))) slid).

(** The client state once a rule fetch issued after [tr] has completed. *)
Definition afterFetchRules (w : World) (tr : list Call) (st : App) : App :=
  let started := setRulesLoading true (setRulesError None st) in
  match api w tr GetRules with
  | Resolves p =>
      let res :=
        match p with
        | RulesRes r => r
        | _ => mkRulesResponse None None None
        end in
      setRulesLoading false
        (setPumpRulesPausedUntil (pump_rules_paused_until res)
           (setLightRulesPausedUntil (light_rules_paused_until res)
              (setRules (JS.nullish (res_rules res) []) started)))
  | Rejects e =>
      setRulesLoading false
        (setRulesError (Some (rulesErrorMessage e))
           (setPumpRulesPausedUntil None
              (setLightRulesPausedUntil None (setRules [] (refused e started)))))
  end.

(** ** Stating the pause and duration properties *)

(** The pause field denotes an instant after [now]. *)
Definition pauseInFuture (parse : string -> option Z) (now : Z) (p : option string) : Prop :=
  exists t, pauseInstant parse p = Some t /\ now < t.

(** The pause field is absent, or denotes no instant, or one not after
    [now]. *)
Definition pauseAbsentOrPast (parse : string -> option Z) (now : Z) (p : option string)
  : Prop :=
  pauseInstant parse p = None \/ exists t, pauseInstant parse p = Some t /\ t <= now.

(** The pause field denotes an instant strictly before [now]. *)
Definition pauseExpired (parse : string -> option Z) (now : Z) (p : option string) : Prop :=
  exists t, pauseInstant parse p = Some t /\ t < now.

(** [n] brought into [[lo, hi]]. *)
Definition clamp (lo hi n : Z) : Z :=
  if n <? lo then lo else if hi <? n then hi else n.

(** ** The gate and the workflows, by actuator class *)

Definition gate (c : ActuatorClass) : Action -> M unit :=
  match c with
  | LightClass => runOrShowResumeLight
  | PumpClass => runOrShowResumePump
  end.

Definition pauseField (c : ActuatorClass) (st : App) : option string :=
  match c with
  | LightClass => lightRulesPausedUntil st
  | PumpClass => pumpRulesPausedUntil st
  end.

Definition setPauseField (c : ActuatorClass) (v : option string) : App -> App :=
  match c with
  | LightClass => setLightRulesPausedUntil v
  | PumpClass => setPumpRulesPausedUntil v
  end.

(** The resume request of the class the open dialog is about. *)
Definition resumeCallOf (st : App) : Call :=
  match rm_type (resumeModal st) with
  | LightClass => ResumeLightRules
  | PumpClass => ResumePumpRules
  end.


(** The requests of a confirmed manual watering when none fails. *)
Definition pumpManualCalls (st : App) : list Call :=
  let minutes := pumpManualMinutes (pm_minutes (pumpManualModal st)) in
  [PausePumpRulesForMinutes minutes; SetManualPumpOffInMinutes minutes; GetRules;
   SetPumpSpeed 100; PumpOn]
  ++ readingCalls.


(** ** Footprints of handlers *)

(** [m] does not look at what [f] changes: running it after [f] gives the
    same outcome and requests, and the state it would have left, with [f]
    applied. *)
Definition framed {A} (f : App -> App) (m : M A) : Prop :=
  forall w tr st,
    m w tr (f st)
    = mkRun (outcome (m w tr st)) (calls (m w tr st)) (f (client (m w tr st))).

(** [m] only adds requests satisfying [P] to the trace, and leaves the
    part of the state read by [proj] as it found it. *)
Definition within {A B} (P : Call -> Prop) (proj : App -> B) (m : M A) : Prop :=
  forall w tr st,
    (exists l, calls (m w tr st) = (tr ++ l)%list /\ Forall P l)
    /\ proj (client (m w tr st)) = proj st.

(** ** Sample worlds and states *)

(** The state [App] starts in, given the stored token. *)
Definition initialApp (token : option string) : App :=
  mkApp token true None None
    (mkSensorState None None None None None None None)
    50 [] None false
    (mkLightOverrideModal false On "60")
    (mkPumpManualModal false "5")
    None None
    (mkResumeModal false LightClass "")
    None.

(** A sample date parser: instants written as decimal milliseconds. *)
Definition sampleParse (s : string) : option Z := JS.digits 0 s.

(** A device that cannot be reached, at 09:15 and instant 1000. *)
Definition unreachableWorld : World :=
  mkWorld (fun _ _ => Rejects (ErrorObj "Failed to fetch"))
    (fun _ => "09:15") (fun _ => 1000) sampleParse.

(** A device that answers every request, reporting both rule classes
    paused until instant 5000; the clock stands at 09:15, instant 1000. *)
Definition pausedWorld : World :=
  mkWorld
    (fun _ c =>
       match c with
       | GetRules => Resolves (RulesRes (mkRulesResponse (Some []) (Some "5000") (Some "5000")))
       | GetPumpStats => Resolves (Stats (mkPumpStats (Some 0) (Some 0)))
       | GetDistance | GetHumidity | GetTemperature | GetPcbTemp
       | GetLightBrightness | GetPumpSpeed => Resolves (Reading (Some 7))
       | _ => Resolves Message
       end)
    (fun _ => "09:15") (fun _ => 1000) sampleParse.

(** A client that has read sensors and a pause of both classes until the
    given instant. *)
Definition pausedApp (until : string) : App :=
  setState (mkSensorState (Some 10) (Some 40) (Some 21) (Some 30) (Some 70) (Some 0) None)
    (setLightRulesPausedUntil (Some until)
       (setPumpRulesPausedUntil (Some until) (initialApp (Some "token")))).

(** ** Further notions for stating properties *)

(** [m] always returns: no rejected request escapes it. *)
Definition settles {A} (m : M A) : Prop :=
  forall w tr st, exists a, outcome (m w tr st) = Returned a.


(** ** Displaying a rule time ([formatTime12h]) *)

(** [String(n)], also what a template literal prints: the decimal digits of
    an integer, ["NaN"] otherwise. *)
Definition numberToString (n : JS.number) : string :=
  match n with
  | Some z => NilZero.string_of_int (Z.to_int z)
  | None => "NaN"
  end.

Fixpoint repeatChar (k : nat) (c : ascii) : string :=
  match k with
  | O => EmptyString
  | S k' => String c (repeatChar k' c)
  end.

(** [s.padStart(n, c)] for a one-character pad. *)
Definition padStart (n : nat) (c : ascii) (s : string) : string :=
  (repeatChar (n - String.length s) c ++ s)%string.

(** [/^\d{1,2}:\d{2}$/.test(s)] *)
Definition matchesHourMinute (s : string) : bool :=
  match s with
  | String a (String b (String c (String d EmptyString))) =>
      JS.is_digit a && Ascii.eqb b ":" && JS.is_digit c && JS.is_digit d
  | String a (String b (String c (String d (String e EmptyString)))) =>
      JS.is_digit a && JS.is_digit b && Ascii.eqb c ":" && JS.is_digit d && JS.is_digit e
  | _ => false
  end.

(** [a % b], the remainder with the sign of [a]. *)
Definition remainder (a : JS.number) (b : Z) : JS.number :=
  match a with
  | Some x => if b =? 0 then JS.NaN else Some (Z.rem x b)
  | None => JS.NaN
  end.

(** Format a stored ["HH:MM"] (24h) as 12h for display.  The pattern test
    guarantees two numeric parts; a missing part would read as [NaN]
    here. *)
Definition formatTime12h (hhmm : option string) : string :=
  match hhmm with
  | None => ""
  | Some s =>
      if (s =? "")%string || negb (matchesHourMinute (JS.trim s)) then s
      else
        let parts := map JS.Number (JS.split ":" (JS.trim s)) in
        let h := JS.nullish (nth_error parts 0) JS.NaN in
        let m := JS.nullish (nth_error parts 1) JS.NaN in
        let hour := JS.or_default (remainder h 12) 12 in
        let ampm := if JS.lt h (Some 12) then "AM" else "PM" in
        (numberToString (Some hour) ++ ":" ++ padStart 2 "0" (numberToString m)
         ++ " " ++ ampm)%string
  end.

(** Every time of day, hour by hour. *)
Definition allTimes : list Time :=
  flat_map
    (fun h => map (fun m => mkTime (Z.of_nat h) (Z.of_nat m)) (seq 0 60))
    (seq 0 24).

(** Reading a 12h display back, to tell displays apart. *)
Definition read12h (s : string) : option Time :=
  match JS.split ":" s with
  | [h; String a (String b (String _ (String x _)))] =>
      match JS.digits 0 h with
      | Some h12 =>
          Some (mkTime (h12 mod 12 + (if Ascii.eqb x "P" then 12 else 0))
                  (10 * JS.digit_val a + JS.digit_val b))
      | None => None
      end
  | _ => None
  end.

(** ** The request wrapper of the client module ([request]) *)

(** What [fetch] resolved to, as far as [request] looks at it; [http_json]
    is what [res.json()] gives. *)
Record HttpResponse (T : Type) := mkHttpResponse {
  http_status : Z;
  http_ok : bool;
  http_statusText : string;
  http_text : string;
  http_contentLength : option string;
  http_json : Outcome T
}.
Arguments mkHttpResponse {T} _ _ _ _ _ _.
Arguments http_status {T} _.
Arguments http_ok {T} _.
Arguments http_statusText {T} _.
Arguments http_text {T} _.
Arguments http_contentLength {T} _.
Arguments http_json {T} _.

(** [a || b] on strings: the empty string is falsy. *)
Definition orElse (a b : string) : string := if (a =? "")%string then b else a.

(** [request], after [fetch] has settled: [onUnauthorized] is the callback
    registered by [setAuthCallbacks] (or none), acting on the caller's
    session [S]; the result is [None] for [undefined]. *)
Definition request {S T : Type} (onUnauthorized : option (S -> S))
  (fetched : Thrown + HttpResponse T) (session : S) : S * Outcome (option T) :=
  match fetched with
  | inl e => (session, Threw e)
  | inr res =>
      if http_status res =? 401 then
        (match onUnauthorized with Some f => f session | None => session end,
         Threw (ErrorObj ("API 401: " ++ orElse (http_text res) "Unauthorized")))
      else if negb (http_ok res) then
        (session,
         Threw (ErrorObj ("API " ++ numberToString (Some (http_status res)) ++ ": "
                          ++ orElse (http_text res) (http_statusText res))))
      else if (http_status res =? 204)
              || match http_contentLength res with
                 | Some l => (l =? "0")%string
                 | None => false
                 end
      then (session, Returned None)
      else
        (session,
         match http_json res with
         | Returned v => Returned (Some v)
         | Threw e => Threw e
         end)
  end.

Fixpoint dropString (n : nat) (s : string) : string :=
  match n, s with
  | O, _ => s
  | S n', String _ r => dropString n' r
  | S _, EmptyString => EmptyString
  end.

Fixpoint dropDigits (s : string) : string :=
  match s with
  | String c r => if JS.is_digit c then dropDigits r else s
  | EmptyString => EmptyString
  end.

(** [s.replace(/^API \d+: /, "")]: the digits are taken greedily, and a
    shorter run could only be followed by a digit, so the pattern matches
    exactly when the longest run is followed by a colon and a space. *)
Definition stripApiPrefix (s : string) : string :=
  if JS.startsWith "API " s then
    match dropString 4 s with
    | String c r =>
        if JS.is_digit c then
          let rest := dropDigits r in
          if JS.startsWith ": " rest then dropString 2 rest else s
        else s
    | EmptyString => s
    end
  else s.

(** What [testSlackNotification] shows when the test request throws [e]. *)
Definition slackFailureText (e : Thrown) : string :=
  let msg := messageOr e "Test failed" in
  orElse (JS.trim (stripApiPrefix msg)) "Test failed".

(** What the device said about a refused request: the body, or the fallback
    [request] uses for that status. *)
Definition refusalDetail {T} (res : HttpResponse T) : string :=
  if http_status res =? 401 then orElse (http_text res) "Unauthorized"
  else orElse (http_text res) (http_statusText res).

(** ** The rule form ([openNewRule], [openEditRule], [submitRuleForm]) *)

Record ScheduleForm := mkScheduleForm {
  f_open : bool;
  f_editingId : option string;
  f_type : ActuatorClass;
  f_start_time : string;
  f_end_time : string;
  f_use_range : bool;
  f_brightness_pct : option Z;
  f_time : string;
  f_duration_minutes : Z;
  f_enabled : bool
}.

Definition openNewRule (type : ActuatorClass) : ScheduleForm :=
  mkScheduleForm true None type "06:00" "09:00"
    (match type with LightClass => true | PumpClass => false end)
    (Some 70) "09:30" 5 true.

Definition openEditRule (rule : ScheduleRule) : ScheduleForm :=
  match rule with
  | Light r =>
      mkScheduleForm true (Some (l_id r)) LightClass
        (start_time r)
        (JS.nullish (end_time r) "")
        (match end_time r with
         | Some e => negb (e =? "")%string
         | None => false
         end)
        (brightness_pct r) "09:30" 5
        (JS.nullish (l_enabled r) true)
  | Pump r =>
      mkScheduleForm true (Some (p_id r)) PumpClass
        "06:00" "" false (Some 0) (time r) (duration_minutes r)
        (JS.nullish (p_enabled r) true)
  end.

(** [ScheduleRuleCreate] as the form builds it. *)
Inductive RulePayload :=
| LightPayload (start_time : string) (end_time : option string)
    (brightness_pct : option Z) (enabled : bool)
| PumpPayload (time : string) (duration_minutes : Z) (enabled : bool).

Inductive RuleRequest :=
| CreateRule (payload : RulePayload)
| UpdateRule (id : string) (payload : RulePayload).

(** The payload [submitRuleForm] builds from the form. *)
Definition ruleFormPayload (f : ScheduleForm) : RulePayload :=
  match f_type f with
  | LightClass =>
      LightPayload (f_start_time f)
        (if f_use_range f
         then (if (f_end_time f =? "")%string then None else Some (f_end_time f))
         else None)
        (f_brightness_pct f) (f_enabled f)
  | PumpClass => PumpPayload (f_time f) (f_duration_minutes f) (f_enabled f)
  end.

(** The request [submitRuleForm] awaits first: an update when the form
    holds a (truthy) rule id, a creation otherwise. *)
Definition submitRuleRequest (f : ScheduleForm) : RuleRequest :=
  match f_editingId f with
  | Some id =>
      if (id =? "")%string then CreateRule (ruleFormPayload f)
      else UpdateRule id (ruleFormPayload f)
  | None => CreateRule (ruleFormPayload f)
  end.

(** The end time an unchanged edit sends back: the empty string becomes
    null. *)
Definition normalizedEnd (e : option string) : option string :=
  match e with
  | Some s => if (s =? "")%string then None else Some s
  | None => None
  end.

(** Every character of [s] is a decimal digit. *)
Fixpoint allDigits (s : string) : bool :=
  match s with
  | String c r => JS.is_digit c && allDigits r
  | EmptyString => true
  end.

(** ** The rules the effective brightness counts, in the specification's
    words *)

(** [b] is the brightness of a rule of the list that is a light rule, whose
    [enabled] is not [false], which is not paused, and whose range matches
    [now]. *)
Definition countedAt (now : string) (rules : list ScheduleRule) (b : Z) : Prop :=
  exists l,
    In (Light l) rules
    /\ l_enabled l <> Some false
    /\ l_paused l <> Some true
    /\ isTimeInRange now (start_time l) (end_time l) = true
    /\ JS.nullish (brightness_pct l) 0 = b.

(** A rule the evaluation leaves out whatever the time: a pump rule, a light
    rule with [enabled] false, a paused light rule. *)
Definition ruleLeftOut (r : ScheduleRule) : bool :=
  match r with
  | Pump _ => true
  | Light l =>
      match l_enabled l, l_paused l with
      | Some false, _ => true
      | _, Some true => true
      | _, _ => false
      end
  end.

(** A clock text made of decimal digits, colons and white space only: on
    these [JS.Number] reads exactly what JavaScript reads. *)
Fixpoint plainClockText (s : string) : bool :=
  match s with
  | String c r =>
      (JS.is_digit c || Ascii.eqb c ":" || JS.is_white c) && plainClockText r
  | EmptyString => true
  end.

(** ** When the polling effect runs again *)

(** The effect's dependency array, as far as it can change ([fetchAll] and
    [fetchRules] are stable callbacks): the token and the two pause
    fields. *)
Definition pollingDeps (st : App) : option string * option string * option string :=
  (token st, lightRulesPausedUntil st, pumpRulesPausedUntil st).

Definition sameValue (a b : option string) : bool :=
  match a, b with
  | Some x, Some y => (x =? y)%string
  | None, None => true
  | _, _ => false
  end.

(** No entry of the dependency array changed. *)
Definition sameDeps (a b : option string * option string * option string) : bool :=
  let '(t1, l1, p1) := a in
  let '(t2, l2, p2) := b in
  sameValue t1 t2 && sameValue l1 l2 && sameValue p1 p2.

(** The last run of the effect: the dependencies it saw and the timer it
    set. *)
Record Mounted := mkMounted {
  m_deps : option string * option string * option string;
  m_timer : option Timer
}.

(** After a render: the effect runs on mount and when an entry of its
    dependency array has changed since its last run (its cleanup clears
    the old timer); otherwise the timer of the last run stays in force. *)
Definition commitPollingEffect (last : option Mounted) : M Mounted :=
  st <- get ;;
  match last with
  | Some m =>
      if sameDeps (m_deps m) (pollingDeps st) then ret m
      else (t <- pollingEffect ;; ret (mkMounted (pollingDeps st) t))
  | None => t <- pollingEffect ;; ret (mkMounted (pollingDeps st) t)
  end.

(** Mount, let the timer fire once, render again: the timer then in
    force. *)
Definition mountThenTick : M (option Timer) :=
  m1 <- commitPollingEffect None ;;
  match m_timer m1 with
  | None => ret None
  | Some t =>
      pollingTick (tickPaused t) ;;
      m2 <- commitPollingEffect (Some m1) ;;
      ret (m_timer m2)
  end.

(** A device that keeps reporting both classes paused until instant 5000,
    while the clock reads 1000 during the first refresh and 6000 from then
    on. *)
Definition stalePauseWorld : World :=
  mkWorld (api pausedWorld) (fun _ => "09:15")
    (fun tr => if (List.length tr <=? 7)%nat then 1000 else 6000) sampleParse.

(** A device that reports no pause any more, at instant 6000. *)
Definition clearedPauseWorld : World :=
  mkWorld
    (fun _ c =>
       match c with
       | GetRules => Resolves (RulesRes (mkRulesResponse (Some []) None None))
       | GetPumpStats => Resolves (Stats (mkPumpStats (Some 0) (Some 0)))
       | GetDistance | GetHumidity | GetTemperature | GetPcbTemp
       | GetLightBrightness | GetPumpSpeed => Resolves (Reading (Some 7))
       | _ => Resolves Message
       end)
    (fun _ => "09:15") (fun _ => 6000) sampleParse.

(** A device that refuses every request with a 401. *)
Definition expiredSessionWorld : World :=
  mkWorld (fun _ _ => Rejects (ErrorObj "API 401: Unauthorized"))
    (fun _ => "09:15") (fun _ => 1000) sampleParse.

(** * Properties *)

(** ** Parsing an ["HH:MM"] string *)

Lemma digit_not_white (c : ascii) : JS.is_digit c = true -> JS.is_white c = false.
Proof.
  destruct c as [[] [] [] [] [] [] [] []]; vm_compute; congruence.
Qed.

Lemma digit_not_colon (c : ascii) : JS.is_digit c = true -> Ascii.eqb c ":" = false.
Proof.
  destruct c as [[] [] [] [] [] [] [] []]; vm_compute; congruence.
Qed.

Lemma colon_not_white : JS.is_white ":" = false.
Proof. reflexivity. Qed.

Lemma colon_not_digit : JS.is_digit ":" = false.
Proof. reflexivity. Qed.

Lemma digitChar_spec (d : Z) :
  0 <= d <= 9 -> JS.is_digit (digitChar d) = true /\ JS.digit_val (digitChar d) = d.
Proof.
  intros H.
  assert (d = 0 \/ d = 1 \/ d = 2 \/ d = 3 \/ d = 4 \/ d = 5 \/ d = 6 \/ d = 7
          \/ d = 8 \/ d = 9) as Hd by lia.
  repeat (destruct Hd as [Hd | Hd]; [subst d; split; reflexivity|]).
  subst d; split; reflexivity.
Qed.

(** The minutes of a five-character string [d1 d2 : d3 d4]. *)
Lemma hhmmToMinutes_digits (c1 c2 c3 c4 : ascii) :
  JS.is_digit c1 = true -> JS.is_digit c2 = true ->
  JS.is_digit c3 = true -> JS.is_digit c4 = true ->
  hhmmToMinutes (String c1 (String c2 (String ":" (String c3 (String c4 "")))))
  = Some (60 * (10 * JS.digit_val c1 + JS.digit_val c2)
          + (10 * JS.digit_val c3 + JS.digit_val c4)).
Proof.
  intros H1 H2 H3 H4.
  pose proof (digit_not_white _ H1) as W1. pose proof (digit_not_white _ H2) as W2.
  pose proof (digit_not_white _ H3) as W3. pose proof (digit_not_white _ H4) as W4.
  pose proof (digit_not_colon _ H1) as K1. pose proof (digit_not_colon _ H2) as K2.
  pose proof (digit_not_colon _ H3) as K3. pose proof (digit_not_colon _ H4) as K4.
  unfold hhmmToMinutes, JS.trim.
  cbn [JS.trimStart]. rewrite W1.
  cbn [JS.trimEnd]. rewrite W1, W2, W3, W4, colon_not_white. cbn [andb].
  cbn [JS.split]. rewrite K1, K2, K3, K4. cbn [Ascii.eqb Bool.eqb].
  cbn [map nth_error JS.nullish].
  unfold JS.Number, JS.trim.
  cbn [JS.trimStart]. rewrite W1, W3.
  cbn [JS.trimEnd]. rewrite W1, W2, W3, W4. cbn [andb].
  cbn [JS.digits]. rewrite H1, H2, H3, H4.
  cbn [JS.mul JS.add]. f_equal. lia.
Qed.

Lemma hhmm_shape (t : Time) :
  hhmm t = String (digitChar (hour t / 10)) (String (digitChar (hour t mod 10))
             (String ":" (String (digitChar (minute t / 10))
               (String (digitChar (minute t mod 10)) "")))).
Proof. reflexivity. Qed.

Lemma hhmmToMinutes_hhmm (t : Time) :
  validTime t -> hhmmToMinutes (hhmm t) = Some (60 * hour t + minute t).
Proof.
  intros [Hh Hm]. rewrite hhmm_shape.
  assert (0 <= hour t / 10 <= 9) as A1
    by (split; [apply Z.div_pos; lia | apply Z.div_le_upper_bound; lia]).
  assert (0 <= hour t mod 10 <= 9) as A2
    by (pose proof (Z.mod_pos_bound (hour t) 10); lia).
  assert (0 <= minute t / 10 <= 9) as A3
    by (split; [apply Z.div_pos; lia | apply Z.div_le_upper_bound; lia]).
  assert (0 <= minute t mod 10 <= 9) as A4
    by (pose proof (Z.mod_pos_bound (minute t) 10); lia).
  destruct (digitChar_spec _ A1) as [D1 V1]. destruct (digitChar_spec _ A2) as [D2 V2].
  destruct (digitChar_spec _ A3) as [D3 V3]. destruct (digitChar_spec _ A4) as [D4 V4].
  rewrite (hhmmToMinutes_digits _ _ _ _ D1 D2 D3 D4), V1, V2, V3, V4.
  f_equal.
  pose proof (Z.div_mod (hour t) 10). pose proof (Z.div_mod (minute t) 10). lia.
Qed.

Lemma hhmm_not_empty (t : Time) : (hhmm t =? "")%string = false.
Proof. rewrite hhmm_shape. reflexivity. Qed.

Lemma timeLt_minutes (a b : Time) :
  validTime a -> validTime b ->
  (timeLt a b <-> 60 * hour a + minute a < 60 * hour b + minute b).
Proof.
  unfold validTime, timeLt. intros [Ha1 Ha2] [Hb1 Hb2].
  split; [intros [H | [H1 H2]] | intros H]; lia.
Qed.

Lemma time_eq_minutes (a b : Time) :
  validTime a -> validTime b ->
  (a = b <-> 60 * hour a + minute a = 60 * hour b + minute b).
Proof.
  unfold validTime. intros Ha Hb. split.
  - intros ->. reflexivity.
  - intros H. destruct a as [ha ma], b as [hb mb]; cbn [hour minute] in *.
    assert (ha = hb) by lia. assert (ma = mb) by lia. subst. reflexivity.
Qed.

Lemma timeLe_minutes (a b : Time) :
  validTime a -> validTime b ->
  (timeLe a b <-> 60 * hour a + minute a <= 60 * hour b + minute b).
Proof.
  intros Ha Hb. unfold timeLe.
  rewrite (timeLt_minutes a b Ha Hb), (time_eq_minutes a b Ha Hb). lia.
Qed.

(** Two valid times have the same string only when they are the same time. *)
Lemma hhmm_eqb (a b : Time) :
  validTime a -> validTime b -> ((hhmm a =? hhmm b)%string = true <-> a = b).
Proof.
  intros Ha Hb. rewrite String.eqb_eq. split.
  - intros H. apply (time_eq_minutes a b Ha Hb).
    pose proof (hhmmToMinutes_hhmm a Ha) as Ea.
    pose proof (hhmmToMinutes_hhmm b Hb) as Eb.
    rewrite H in Ea. congruence.
  - intros ->. reflexivity.
Qed.

(** ** C1: the range test *)

(** C1. For valid times of day [now], [start] and [end_], written as
    ["HH:MM"] strings: when [end_] is after [start], [isTimeInRange] holds
    exactly when [start <= now < end_]; when [end_] is not after [start]
    (the range wraps midnight), exactly when [now >= start] or
    [now < end_]; and when the end is null or empty, exactly when [now] is
    [start]. *)
Theorem isTimeInRange_spec (now start end_ : Time) :
  validTime now -> validTime start -> validTime end_ ->
  (timeLt start end_ ->
     (isTimeInRange (hhmm now) (hhmm start) (Some (hhmm end_)) = true
      <-> timeLe start now /\ timeLt now end_))
  /\ (timeLe end_ start ->
     (isTimeInRange (hhmm now) (hhmm start) (Some (hhmm end_)) = true
      <-> timeLe start now \/ timeLt now end_))
  /\ (isTimeInRange (hhmm now) (hhmm start) None = true <-> now = start)
  /\ (isTimeInRange (hhmm now) (hhmm start) (Some "") = true <-> now = start).
Proof.
  intros Hn Hs He.
  assert (forall b c : bool, (b && c = true) <-> (b = true /\ c = true)) as Band
    by (intros [] []; cbn; intuition congruence).
  assert (forall b c : bool, (b || c = true) <-> (b = true \/ c = true)) as Bor
    by (intros [] []; cbn; intuition congruence).
  split; [|split; [|split]].
  - intros Hlt.
    apply (timeLt_minutes start end_ Hs He) in Hlt.
    unfold isTimeInRange. rewrite hhmm_not_empty.
    rewrite !hhmmToMinutes_hhmm by assumption.
    rewrite (timeLe_minutes start now Hs Hn), (timeLt_minutes now end_ Hn He).
    unfold JS.gt, JS.ge, JS.lt.
    destruct (60 * hour start + minute start <? 60 * hour end_ + minute end_) eqn:E;
      [|apply Z.ltb_ge in E; lia].
    rewrite Band, Z.leb_le, Z.ltb_lt. reflexivity.
  - intros Hle.
    apply (timeLe_minutes end_ start He Hs) in Hle.
    unfold isTimeInRange. rewrite hhmm_not_empty.
    rewrite !hhmmToMinutes_hhmm by assumption.
    rewrite (timeLe_minutes start now Hs Hn), (timeLt_minutes now end_ Hn He).
    unfold JS.gt, JS.ge, JS.lt.
    destruct (60 * hour start + minute start <? 60 * hour end_ + minute end_) eqn:E;
      [apply Z.ltb_lt in E; lia|].
    rewrite Bor, Z.leb_le, Z.ltb_lt. reflexivity.
  - cbn [isTimeInRange]. apply (hhmm_eqb now start Hn Hs).
  - unfold isTimeInRange. cbn [String.eqb]. apply (hhmm_eqb now start Hn Hs).
Qed.

(** The overnight example: 23:30 lies in 22:00-06:00. *)
Lemma isTimeInRange_spec_witness :
  isTimeInRange (hhmm (mkTime 23 30)) (hhmm (mkTime 22 0)) (Some (hhmm (mkTime 6 0)))
  = true.
Proof.
  assert (validTime (mkTime 23 30)) as Hn by (unfold validTime; cbn; lia).
  assert (validTime (mkTime 22 0)) as Hs by (unfold validTime; cbn; lia).
  assert (validTime (mkTime 6 0)) as He by (unfold validTime; cbn; lia).
  destruct (isTimeInRange_spec (mkTime 23 30) (mkTime 22 0) (mkTime 6 0) Hn Hs He)
    as [_ [Hwrap _]].
  apply Hwrap.
  - left. left. cbn. lia.
  - left. left. left. cbn. lia.
Defined.

Example inRange_overnight_inside : isTimeInRange "23:30" "22:00" (Some "06:00") = true.
Proof. reflexivity. Qed.

Example inRange_overnight_outside : isTimeInRange "12:00" "22:00" (Some "06:00") = false.
Proof. reflexivity. Qed.

(** ** C2: effective brightness *)

(** The loop, started from any accumulator, only looks at the brightness
    values of the active rules. *)
Lemma effective_fold (now : string) (rules : list ScheduleRule) (acc : option Z) :
  fold_left (effectiveStep now) rules acc
  = fold_left
      (fun a b => match a with None => Some b | Some m => Some (JS.Math_max m b) end)
      (activeBrightness now rules) acc.
Proof.
  revert acc. induction rules as [|r rules IH]; intros acc; [reflexivity|].
  cbn [fold_left activeBrightness flat_map]. rewrite fold_left_app, IH.
  f_equal. destruct r as [l|p]; [|reflexivity].
  unfold effectiveStep, lightRuleActive.
  destruct (lightRuleConsidered l); cbn [negb andb]; [|reflexivity].
  destruct (isTimeInRange now (start_time l) (end_time l)); reflexivity.
Qed.

Lemma running_max_some (bs : list Z) (a : Z) :
  exists m,
    fold_left
      (fun a b => match a with None => Some b | Some m => Some (JS.Math_max m b) end)
      bs (Some a) = Some m
    /\ (m = a \/ In m bs) /\ a <= m /\ forall b, In b bs -> b <= m.
Proof.
  revert a. induction bs as [|b bs IH]; intros a.
  - exists a. cbn. split; [reflexivity|]. split; [left; reflexivity|].
    split; [lia | intros b []].
  - cbn [fold_left]. destruct (IH (JS.Math_max a b)) as [m [E [Hin [Hle Hall]]]].
    exists m. unfold JS.Math_max in *. split; [|split; [|split]].
    + exact E.
    + destruct Hin as [-> | Hin]; [|right; right; exact Hin].
      destruct (Z.max_spec a b) as [[_ ->] | [_ ->]]; [right; left|left]; reflexivity.
    + lia.
    + intros x [<- | Hx]; [lia | apply Hall, Hx].
Qed.

Lemma isMaximum_unique (bs : list Z) (m m' : Z) :
  isMaximum m bs -> isMaximum m' bs -> m = m'.
Proof.
  intros [Hin Hall] [Hin' Hall']. pose proof (Hall _ Hin'). pose proof (Hall' _ Hin). lia.
Qed.

Lemma effective_some_iff (now : string) (rules : list ScheduleRule) (m : Z) :
  getEffectiveLightBrightnessFromRules now rules = Some m
  <-> isMaximum m (activeBrightness now rules).
Proof.
  unfold getEffectiveLightBrightnessFromRules. rewrite effective_fold.
  destruct (activeBrightness now rules) as [|b bs].
  - cbn. split; [discriminate | intros [[] _]].
  - cbn [fold_left]. destruct (running_max_some bs b) as [m0 [E [Hin [Hle Hall]]]].
    rewrite E.
    assert (isMaximum m0 (b :: bs)) as H0.
    { split.
      - destruct Hin as [-> | Hin]; [left; reflexivity | right; exact Hin].
      - intros x [<- | Hx]; [exact Hle | apply Hall, Hx]. }
    split.
    + intros [= <-]. exact H0.
    + intros Hm. f_equal. apply (isMaximum_unique (b :: bs)); assumption.
Qed.

Lemma effective_none_iff (now : string) (rules : list ScheduleRule) :
  getEffectiveLightBrightnessFromRules now rules = None
  <-> activeBrightness now rules = [].
Proof.
  unfold getEffectiveLightBrightnessFromRules. rewrite effective_fold.
  destruct (activeBrightness now rules) as [|b bs].
  - cbn. split; reflexivity.
  - cbn [fold_left]. destruct (running_max_some bs b) as [m0 [E _]]. rewrite E.
    split; discriminate.
Qed.

Lemma activeBrightness_In (now : string) (rules : list ScheduleRule) (b : Z) :
  In b (activeBrightness now rules)
  <-> exists l, In (Light l) rules /\ lightRuleActive now l = true
                /\ JS.nullish (brightness_pct l) 0 = b.
Proof.
  unfold activeBrightness. rewrite in_flat_map. split.
  - intros [r [Hr Hb]]. destruct r as [l|p]; [|destruct Hb].
    destruct (lightRuleActive now l) eqn:E; [|destruct Hb].
    destruct Hb as [<- | []]. exists l. repeat split; assumption.
  - intros [l [Hl [Ha <-]]]. exists (Light l). split; [exact Hl|].
    rewrite Ha. left. reflexivity.
Qed.

(** The loop's guard lets a light rule through exactly when its [enabled]
    is not [false] and its [paused] is not [true]. *)
Lemma lightRuleConsidered_iff (l : LightRule) :
  lightRuleConsidered l = true
  <-> l_enabled l <> Some false /\ l_paused l <> Some true.
Proof.
  unfold lightRuleConsidered, JS.nullish.
  destruct (l_enabled l) as [[|]|], (l_paused l) as [[|]|]; cbn;
    split; try discriminate; try (intros [H1 H2]; congruence);
    intros _; split; discriminate.
Qed.

(** The guard and the list of rules the evaluation leaves out whatever the
    time say the same. *)
Lemma lightRuleConsidered_leftOut (l : LightRule) :
  lightRuleConsidered l = negb (ruleLeftOut (Light l)).
Proof.
  unfold lightRuleConsidered, ruleLeftOut, JS.nullish.
  destruct (l_enabled l) as [[|]|], (l_paused l) as [[|]|]; reflexivity.
Qed.

(** The values the loop takes the maximum of are those of the rules the
    specification counts. *)
Lemma activeBrightness_counted (now : string) (rules : list ScheduleRule) (b : Z) :
  In b (activeBrightness now rules) <-> countedAt now rules b.
Proof.
  rewrite activeBrightness_In. unfold countedAt, lightRuleActive.
  split; intros [l [Hl H]]; exists l; (split; [exact Hl|]).
  - destruct H as [Ha Hb]. apply andb_true_iff in Ha. destruct Ha as [Hc Hr].
    apply lightRuleConsidered_iff in Hc. destruct Hc as [He Hp].
    repeat split; assumption.
  - destruct H as [He [Hp [Hr Hb]]]. split; [|exact Hb].
    apply andb_true_iff. split; [|exact Hr].
    apply lightRuleConsidered_iff. split; assumption.
Qed.

(** C2. The effective light brightness is the maximum brightness over the
    light rules whose [enabled] is not [false], which are not paused and
    whose range matches [now]: it is null exactly when the list holds no
    such rule, and it is [m] exactly when such a rule has brightness [m]
    and none of them has more; so a matching 0% rule gives [0], not
    null. *)
Theorem effective_brightness_is_maximum (now : string) (rules : list ScheduleRule) :
  (getEffectiveLightBrightnessFromRules now rules = None
   <-> forall b, ~ countedAt now rules b)
  /\ (forall m, getEffectiveLightBrightnessFromRules now rules = Some m
                <-> countedAt now rules m
                    /\ forall b, countedAt now rules b -> b <= m).
Proof.
  split.
  - rewrite effective_none_iff. split.
    + intros E b Hb. apply activeBrightness_counted in Hb. rewrite E in Hb. destruct Hb.
    + intros Hno. destruct (activeBrightness now rules) as [|b bs] eqn:E; [reflexivity|].
      exfalso. apply (Hno b). apply activeBrightness_counted. rewrite E. left. reflexivity.
  - intros m. rewrite effective_some_iff. unfold isMaximum. split.
    + intros [Hin Hall]. split; [apply activeBrightness_counted, Hin|].
      intros b Hb. apply Hall, activeBrightness_counted, Hb.
    + intros [Hin Hall]. split; [apply activeBrightness_counted, Hin|].
      intros b Hb. apply Hall, activeBrightness_counted, Hb.
Qed.

(** The specification's example: 08:00-10:00 at 40% and 09:00-09:30 at 80%,
    at 09:15. *)
Example effective_brightness_overlap :
  getEffectiveLightBrightnessFromRules "09:15"
    [Light (mkLightRule "a" (Some true) None "08:00" (Some "10:00") (Some 40));
     Light (mkLightRule "b" (Some true) None "09:00" (Some "09:30") (Some 80))]
  = Some 80.
Proof. reflexivity. Qed.

(** A matching 0% rule is an answer; no matching rule is none. *)
Example effective_brightness_zero_vs_none :
  getEffectiveLightBrightnessFromRules "09:15"
    [Light (mkLightRule "a" None None "08:00" (Some "10:00") (Some 0))] = Some 0
  /\ getEffectiveLightBrightnessFromRules "11:00"
    [Light (mkLightRule "a" None None "08:00" (Some "10:00") (Some 0))] = None.
Proof. split; reflexivity. Qed.

(** ** Closed forms of the two refreshes *)

Lemma reading_run (c : Call) (w : World) (tr : list Call) (st : App) :
  reading c w tr st = mkRun (Returned (readValue w tr c)) (tr ++ [c]) (settled w tr c st).
Proof.
  unfold reading, tryCatch, bind, call, ret, readValue, settled.
  destruct (api w tr c) as [e | p]; reflexivity.
Qed.

Lemma readStats_run (w : World) (tr : list Call) (st : App) :
  readStats w tr st
  = mkRun (Returned (statsValue w tr)) (tr ++ [GetPumpStats])
      (settled w tr GetPumpStats st).
Proof.
  unfold readStats, tryCatch, bind, call, ret, statsValue, settled.
  destruct (api w tr GetPumpStats) as [e | p]; [reflexivity|].
  destruct p; reflexivity.
Qed.

Lemma bind_returned {A B} (m : M A) (k : A -> M B) w tr st a tr' st' :
  m w tr st = mkRun (Returned a) tr' st' -> bind m k w tr st = k a w tr' st'.
Proof. intros H. unfold bind. rewrite H. reflexivity. Qed.

Lemma bind_threw {A B} (m : M A) (k : A -> M B) w tr st e tr' st' :
  m w tr st = mkRun (Threw e) tr' st' -> bind m k w tr st = mkRun (Threw e) tr' st'.
Proof. intros H. unfold bind. rewrite H. reflexivity. Qed.

Lemma tryCatch_returned {A} (body : M A) (h : Thrown -> M A) w tr st a tr' st' :
  body w tr st = mkRun (Returned a) tr' st' ->
  tryCatch body h w tr st = mkRun (Returned a) tr' st'.
Proof. intros H. unfold tryCatch. rewrite H. reflexivity. Qed.

Lemma tryCatch_threw {A} (body : M A) (h : Thrown -> M A) w tr st e tr' st' :
  body w tr st = mkRun (Threw e) tr' st' ->
  tryCatch body h w tr st = h e w tr' st'.
Proof. intros H. unfold tryCatch. rewrite H. reflexivity. Qed.

Lemma call_resolves (c : Call) w tr st p :
  api w tr c = Resolves p -> call c w tr st = mkRun (Returned p) (tr ++ [c]) st.
Proof. intros H. unfold call. rewrite H. reflexivity. Qed.

Lemma call_rejects (c : Call) w tr st e :
  api w tr c = Rejects e -> call c w tr st = mkRun (Threw e) (tr ++ [c]) (refused e st).
Proof. intros H. unfold call. rewrite H. reflexivity. Qed.

(** One statement of a handler that returns: run it and go on with the
    rest. *)
Ltac step_with lem :=
  erewrite bind_returned; [cbv beta | first [apply lem | reflexivity]].
Ltac step :=
  erewrite bind_returned;
  [cbv beta | first [apply reading_run | apply readStats_run | reflexivity]].

(** A refresh never throws, issues exactly the seven reads, and leaves the
    state [afterFetchAll]. *)
Lemma fetchAll_run (w : World) (tr : list Call) (st : App) :
  fetchAll w tr st = mkRun (Returned tt) (tr ++ readingCalls) (afterFetchAll w tr st).
Proof.
  unfold fetchAll, afterFetchAll. cbv zeta. step.
  erewrite bind_returned; [reflexivity|].
  apply tryCatch_returned.
  do 7 (step; rewrite <- ?app_assoc; cbn [List.app]).
  step. unfold freshReadings. cbn [lightBrightness].
  destruct (readValue w
    (tr ++ [GetDistance; GetHumidity; GetTemperature; GetPcbTemp]) GetLightBrightness);
    step; step; reflexivity.
Qed.

Lemma fetchRules_run (w : World) (tr : list Call) (st : App) :
  fetchRules w tr st = mkRun (Returned tt) (tr ++ [GetRules]) (afterFetchRules w tr st).
Proof.
  unfold fetchRules, afterFetchRules, bind, tryCatch, modify, call.
  cbn [outcome calls client].
  destruct (api w tr GetRules) as [e | p]; reflexivity.
Qed.

(** A request that settles changes nothing in the client but, on a 401, the
    token. *)
Lemma refused_cases (e : Thrown) (st : App) :
  refused e st = st \/ refused e st = setToken None st.
Proof. unfold refused, onUnauthorized. destruct (isUnauthorized e); auto. Qed.

Lemma settled_after (w : World) (tr : list Call) (c : Call) (st base : App) :
  st = base \/ st = setToken None base ->
  settled w tr c st = base \/ settled w tr c st = setToken None base.
Proof.
  intros H. unfold settled. destruct (api w tr c) as [e | p]; [|exact H].
  destruct (refused_cases e st) as [E | E]; rewrite E;
    destruct H as [-> | ->]; auto.
Qed.

Lemma afterReads_cases (w : World) (tr : list Call) (st : App) :
  afterReads w tr st = st \/ afterReads w tr st = setToken None st.
Proof. unfold afterReads. do 7 apply settled_after. left. reflexivity. Qed.

(** ** C7: a failed rule fetch *)

Lemma rulesErrorMessage_not_empty (e : Thrown) : rulesErrorMessage e <> "".
Proof.
  unfold rulesErrorMessage.
  destruct ((messageOr e "" =? "Failed to fetch")%string
            || JS.includes (messageOr e "") "NetworkError"
            || JS.includes (messageOr e "") "load failed").
  - discriminate.
  - destruct (messageOr e "" =? "")%string eqn:E; [discriminate|].
    apply String.eqb_neq, E.
Qed.

(** C7. When the rule request fails, [fetchRules] leaves an empty rule
    list, both pause fields null and a non-empty error message, whatever
    rules and pause fields were cached before. *)
Theorem fetchRules_failure_resets (w : World) (tr : list Call) (st : App) (e : Thrown) :
  api w tr GetRules = Rejects e ->
  rules (client (fetchRules w tr st)) = []
  /\ lightRulesPausedUntil (client (fetchRules w tr st)) = None
  /\ pumpRulesPausedUntil (client (fetchRules w tr st)) = None
  /\ exists msg, rulesError (client (fetchRules w tr st)) = Some msg /\ msg <> "".
Proof.
  intros H. rewrite fetchRules_run. cbn [client]. unfold afterFetchRules. rewrite H.
  repeat (split; [reflexivity|]).
  exists (rulesErrorMessage e). split; [reflexivity | apply rulesErrorMessage_not_empty].
Qed.

Lemma fetchRules_failure_resets_witness :
  rules (client (fetchRules unreachableWorld [] (pausedApp "5000"))) = []
  /\ lightRulesPausedUntil (client (fetchRules unreachableWorld [] (pausedApp "5000"))) = None
  /\ pumpRulesPausedUntil (client (fetchRules unreachableWorld [] (pausedApp "5000"))) = None
  /\ exists msg,
       rulesError (client (fetchRules unreachableWorld [] (pausedApp "5000"))) = Some msg
       /\ msg <> "".
Proof.
  apply (fetchRules_failure_resets unreachableWorld [] (pausedApp "5000")
           (ErrorObj "Failed to fetch")).
  reflexivity.
Defined.

Example fetchRules_unreachable_message :
  rulesError (client (fetchRules unreachableWorld [] (pausedApp "5000")))
  = Some unreachableMessage.
Proof. reflexivity. Qed.

(** ** C8: a failed sensor read *)

Lemma readValue_rejects (w : World) (h : list Call) (c : Call) (e : Thrown) :
  api w h c = Rejects e -> readValue w h c = None.
Proof. intros H. unfold readValue. rewrite H. reflexivity. Qed.

(** C8, as stated, fails: with the device unreachable, a refresh replaces a
    known water distance by null. *)
Lemma failed_read_keeps_value_counterexample :
  ~ (forall (w : World) (tr : list Call) (st : App) (e : Thrown),
       api w tr GetDistance = Rejects e ->
       distance (state (client (fetchAll w tr st))) = distance (state st)).
Proof.
  intros H.
  specialize (H unreachableWorld [] (pausedApp "5000") (ErrorObj "Failed to fetch")
                eq_refl).
  vm_compute in H. discriminate H.
Qed.

(** C8, amended. A refresh replaces the whole sensor snapshot by what the
    seven reads returned, so a sensor whose read fails shows null whatever
    it showed before; only the brightness slider keeps its last value when
    the brightness read yields nothing; the rule list and both pause fields
    are not touched by a refresh. *)
Theorem fetchAll_replaces_snapshot (w : World) (tr : list Call) (st : App) :
  state (client (fetchAll w tr st)) = freshReadings w tr
  /\ (forall h c e, api w h c = Rejects e -> readValue w h c = None)
  /\ (forall h e, api w h GetPumpStats = Rejects e -> statsValue w h = None)
  /\ (lightBrightness (freshReadings w tr) = None ->
      lightBrightnessSlider (client (fetchAll w tr st)) = lightBrightnessSlider st)
  /\ rules (client (fetchAll w tr st)) = rules st
  /\ lightRulesPausedUntil (client (fetchAll w tr st)) = lightRulesPausedUntil st
  /\ pumpRulesPausedUntil (client (fetchAll w tr st)) = pumpRulesPausedUntil st.
Proof.
  rewrite fetchAll_run. cbn [client]. unfold afterFetchAll. cbv zeta.
  split; [|split; [|split; [|split]]].
  - destruct (lightBrightness (freshReadings w tr)); reflexivity.
  - apply readValue_rejects.
  - intros h e H. unfold statsValue. rewrite H. reflexivity.
  - intros ->.
    destruct (afterReads_cases w tr (setError None st)) as [E | E]; rewrite E;
      reflexivity.
  - destruct (afterReads_cases w tr (setError None st)) as [E | E]; rewrite E;
      destruct (lightBrightness (freshReadings w tr)); repeat split; reflexivity.
Qed.

Example failed_read_shows_null :
  state (client (fetchAll unreachableWorld [] (pausedApp "5000")))
  = mkSensorState None None None None None None None
  /\ lightBrightnessSlider (client (fetchAll unreachableWorld [] (pausedApp "5000"))) = 50.
Proof. split; reflexivity. Qed.

(** ** C9: the duration of an override *)

(** C9, as stated, fails: an out-of-range duration is clamped to the nearest
    bound, it does not fall back to the default. *)
Lemma out_of_range_falls_back_counterexample :
  ~ (forall input n,
       JS.parseInt input = Some n -> n < 1 \/ 1440 < n ->
       lightOverrideMinutes input = 60).
Proof.
  intros H. specialize (H "2000" 2000 eq_refl (or_intror eq_refl)).
  vm_compute in H. discriminate H.
Qed.

Example pump_out_of_range_is_clamped :
  pumpManualMinutes "500" = 120 /\ pumpManualMinutes "-3" = 1
  /\ pumpManualMinutes "abc" = 5 /\ pumpManualMinutes "0" = 5
  /\ pumpManualMinutes "12.7" = 12.
Proof. repeat split; reflexivity. Qed.

(** C9, amended. Whatever the prompt holds, the duration used is an integer
    in [1,1440] for light and in [1,120] for pump: input that does not
    start with a number, or that reads as [0], gives the default (60 or 5);
    any other number is clamped to the nearest bound. *)
Theorem override_minutes_clamped (input : string) :
  1 <= lightOverrideMinutes input <= 1440
  /\ 1 <= pumpManualMinutes input <= 120
  /\ match JS.parseInt input with
     | None => lightOverrideMinutes input = 60 /\ pumpManualMinutes input = 5
     | Some n =>
         if n =? 0 then lightOverrideMinutes input = 60 /\ pumpManualMinutes input = 5
         else lightOverrideMinutes input = clamp 1 1440 n
              /\ pumpManualMinutes input = clamp 1 120 n
     end.
Proof.
  unfold lightOverrideMinutes, pumpManualMinutes, JS.Math_max, JS.Math_min, JS.or_default,
    clamp.
  destruct (JS.parseInt input) as [n|].
  - destruct (n =? 0) eqn:E0.
    + repeat split; lia.
    + apply Z.eqb_neq in E0.
      destruct (n <? 1) eqn:E1; [apply Z.ltb_lt in E1 | apply Z.ltb_ge in E1];
      destruct (1440 <? n) eqn:E2; [apply Z.ltb_lt in E2 | apply Z.ltb_ge in E2
                                   | apply Z.ltb_lt in E2 | apply Z.ltb_ge in E2];
      destruct (120 <? n) eqn:E3;
      try (apply Z.ltb_lt in E3); try (apply Z.ltb_ge in E3);
      repeat split; lia.
  - repeat split; lia.
Qed.

(** ** The pause test *)

Lemma isPausedInFuture_true (parse : string -> option Z) (now : Z) (p : option string) :
  isPausedInFuture parse now p = true <-> pauseInFuture parse now p.
Proof.
  unfold isPausedInFuture, pauseInFuture, pauseInstant.
  destruct p as [s|].
  - destruct (s =? "")%string.
    + split; [discriminate | intros [t [H _]]; discriminate].
    + unfold JS.gt, JS.lt. destruct (parse s) as [t|].
      * rewrite Z.ltb_lt. split.
        -- intros H. exists t. split; [reflexivity | exact H].
        -- intros [t' [[= <-] H]]. exact H.
      * split; [discriminate | intros [t [H _]]; discriminate].
  - split; [discriminate | intros [t [H _]]; discriminate].
Qed.

Lemma isPausedInFuture_false (parse : string -> option Z) (now : Z) (p : option string) :
  isPausedInFuture parse now p = false <-> pauseAbsentOrPast parse now p.
Proof.
  unfold isPausedInFuture, pauseAbsentOrPast, pauseInstant.
  destruct p as [s|].
  - destruct (s =? "")%string.
    + split; [left; reflexivity | reflexivity].
    + unfold JS.gt, JS.lt. destruct (parse s) as [t|].
      * rewrite Z.ltb_ge. split.
        -- intros H. right. exists t. split; [reflexivity | exact H].
        -- intros [H | [t' [[= <-] H]]]; [discriminate | exact H].
      * split; [left; reflexivity | reflexivity].
  - split; [left; reflexivity | reflexivity].
Qed.

Lemma pauseExpired_not_future (parse : string -> option Z) (now : Z) (p : option string) :
  pauseExpired parse now p -> isPausedInFuture parse now p = false.
Proof.
  intros [t [H Hlt]]. apply isPausedInFuture_false. right. exists t. split; [exact H | lia].
Qed.

(** ** C6: the polling interval *)

(** One run of the effect body with a session token: it refreshes the
    readings, and its timer has the short period exactly when one of the
    pause fields it was rendered with is an instant in the future as the
    body reads the clock. *)
Lemma pollingEffect_run (w : World) (tr : list Call) (st : App) (t : string) :
  token st = Some t -> t <> "" ->
  pollingEffect w tr st
  = mkRun
      (Returned
         (Some
            (mkTimer
               (if isPausedInFuture (dateParse w) (dateNow w (tr ++ readingCalls))
                     (lightRulesPausedUntil st)
                   || isPausedInFuture (dateParse w) (dateNow w (tr ++ readingCalls))
                        (pumpRulesPausedUntil st)
                then 5000 else 30000)
               (isPausedInFuture (dateParse w) (dateNow w (tr ++ readingCalls))
                  (lightRulesPausedUntil st)
                || isPausedInFuture (dateParse w) (dateNow w (tr ++ readingCalls))
                     (pumpRulesPausedUntil st)))))
      (tr ++ readingCalls) (afterFetchAll w tr st).
Proof.
  intros Htok Hne. apply String.eqb_neq in Hne.
  unfold pollingEffect. step. rewrite Htok, Hne.
  step_with fetchAll_run. step. step. reflexivity.
Qed.

Lemma pollingEffect_interval (w : World) (tr : list Call) (st : App) (t : string) :
  token st = Some t -> t <> "" ->
  exists timer,
    outcome (pollingEffect w tr st) = Returned (Some timer)
    /\ (pauseInFuture (dateParse w) (dateNow w (tr ++ readingCalls))
          (lightRulesPausedUntil st)
        \/ pauseInFuture (dateParse w) (dateNow w (tr ++ readingCalls))
             (pumpRulesPausedUntil st)
        -> intervalMs timer = 5000)
    /\ (pauseAbsentOrPast (dateParse w) (dateNow w (tr ++ readingCalls))
          (lightRulesPausedUntil st)
        /\ pauseAbsentOrPast (dateParse w) (dateNow w (tr ++ readingCalls))
             (pumpRulesPausedUntil st)
        -> intervalMs timer = 30000).
Proof.
  intros Htok Hne. rewrite (pollingEffect_run w tr st t Htok Hne). cbn [outcome].
  eexists. split; [reflexivity|]. cbn [intervalMs]. split.
  - intros [H | H]; apply isPausedInFuture_true in H; rewrite H;
      [reflexivity | rewrite orb_true_r; reflexivity].
  - intros [Hl Hp]. apply isPausedInFuture_false in Hl, Hp. rewrite Hl, Hp. reflexivity.
Qed.

Example polling_interval_while_paused :
  outcome (pollingEffect pausedWorld [] (pausedApp "5000"))
  = Returned (Some (mkTimer 5000 true)).
Proof. reflexivity. Qed.

Example polling_interval_after_expiry :
  outcome (pollingEffect pausedWorld [] (pausedApp "900"))
  = Returned (Some (mkTimer 30000 false)).
Proof. reflexivity. Qed.





(** The run of the counterexample: fifteen requests (the refresh of the
    mount, the refresh and the rule refetch of the tick), the pause fields
    as the device reports them, the short timer still in force. *)
Example polling_interval_stale_run :
  outcome (mountThenTick stalePauseWorld [] (pausedApp "5000"))
  = Returned (Some (mkTimer 5000 true))
  /\ calls (mountThenTick stalePauseWorld [] (pausedApp "5000"))
     = (readingCalls ++ readingCalls ++ [GetRules])%list
  /\ lightRulesPausedUntil (client (mountThenTick stalePauseWorld [] (pausedApp "5000")))
     = Some "5000"
  /\ dateNow stalePauseWorld (calls (mountThenTick stalePauseWorld [] (pausedApp "5000")))
     = 6000.
Proof. repeat split; reflexivity. Qed.

(** When the rule refetch of the tick reports the pause fields cleared, the
    dependency array has changed: the effect runs again and sets the base
    interval. *)
Example polling_interval_after_cleared_pause :
  outcome (mountThenTick clearedPauseWorld [] (pausedApp "9000"))
  = Returned (Some (mkTimer 30000 false))
  /\ calls (mountThenTick clearedPauseWorld [] (pausedApp "9000"))
     = (readingCalls ++ readingCalls ++ [GetRules] ++ readingCalls)%list.
Proof. split; reflexivity. Qed.



(** ** Footprints: how handlers compose *)

Section Within.
Context {B : Type} (P : Call -> Prop) (proj : App -> B).

Lemma within_ret {A} (a : A) : within P proj (ret a).
Proof.
  intros w tr st. split; [|reflexivity].
  exists []. split; [symmetry; apply app_nil_r | constructor].
Qed.

Lemma within_read {A} (f : World -> list Call -> A) :
  within P proj (fun w tr st => mkRun (Returned (f w tr)) tr st).
Proof.
  intros w tr st. split; [|reflexivity].
  exists []. split; [symmetry; apply app_nil_r | constructor].
Qed.

Lemma within_get : within P proj get.
Proof.
  intros w tr st. split; [|reflexivity].
  exists []. split; [symmetry; apply app_nil_r | constructor].
Qed.

Lemma within_modify (g : App -> App) :
  (forall st, proj (g st) = proj st) -> within P proj (modify g).
Proof.
  intros Hg w tr st. split; [|apply Hg].
  exists []. split; [symmetry; apply app_nil_r | constructor].
Qed.

Lemma within_call (c : Call) :
  (forall st, proj (setToken None st) = proj st) -> P c -> within P proj (call c).
Proof.
  intros Htok Hc w tr st. unfold call.
  destruct (api w tr c) as [e | p]; cbn [calls client].
  - split; [exists [c]; split; [reflexivity | constructor; [exact Hc | constructor]]|].
    destruct (refused_cases e st) as [E | E]; rewrite E; [reflexivity | apply Htok].
  - split; [exists [c]; split; [reflexivity | constructor; [exact Hc | constructor]]
           | reflexivity].
Qed.

Lemma within_bind {A C} (m : M A) (k : A -> M C) :
  within P proj m -> (forall a, within P proj (k a)) -> within P proj (bind m k).
Proof.
  intros Hm Hk w tr st. unfold bind.
  destruct (Hm w tr st) as [[l1 [E1 F1]] Q1].
  destruct (outcome (m w tr st)) as [a | e].
  - destruct (Hk a w (calls (m w tr st)) (client (m w tr st))) as [[l2 [E2 F2]] Q2].
    split.
    + exists (l1 ++ l2)%list. split.
      * rewrite E2, E1, app_assoc. reflexivity.
      * apply Forall_app. split; assumption.
    + rewrite Q2. exact Q1.
  - cbn [calls client]. split; [exists l1; split; assumption | exact Q1].
Qed.

Lemma within_tryCatch {A} (body : M A) (h : Thrown -> M A) :
  within P proj body -> (forall e, within P proj (h e)) -> within P proj (tryCatch body h).
Proof.
  intros Hm Hk w tr st. unfold tryCatch.
  destruct (Hm w tr st) as [[l1 [E1 F1]] Q1].
  destruct (outcome (body w tr st)) as [a | e].
  - split; [exists l1; split; assumption | exact Q1].
  - destruct (Hk e w (calls (body w tr st)) (client (body w tr st))) as [[l2 [E2 F2]] Q2].
    split.
    + exists (l1 ++ l2)%list. split.
      * rewrite E2, E1, app_assoc. reflexivity.
      * apply Forall_app. split; assumption.
    + rewrite Q2. exact Q1.
Qed.
End Within.

Section Framed.
Context (f : App -> App).

Lemma framed_ret {A} (a : A) : framed f (ret a).
Proof. intros w tr st. reflexivity. Qed.

Lemma framed_read {A} (g : World -> list Call -> A) :
  framed f (fun w tr st => mkRun (Returned (g w tr)) tr st).
Proof. intros w tr st. reflexivity. Qed.

Lemma framed_modify (g : App -> App) :
  (forall st, g (f st) = f (g st)) -> framed f (modify g).
Proof. intros Hg w tr st. unfold modify. cbn [outcome calls client]. rewrite Hg. reflexivity. Qed.

Lemma framed_call (c : Call) :
  (forall st, setToken None (f st) = f (setToken None st)) -> framed f (call c).
Proof.
  intros Htok w tr st. unfold call.
  destruct (api w tr c) as [e | p]; cbn [outcome calls client]; [|reflexivity].
  unfold refused, onUnauthorized. destruct (isUnauthorized e); [|reflexivity].
  rewrite Htok. reflexivity.
Qed.

Lemma framed_bind {A C} (m : M A) (k : A -> M C) :
  framed f m -> (forall a, framed f (k a)) -> framed f (bind m k).
Proof.
  intros Hm Hk w tr st. unfold bind. cbv zeta. rewrite (Hm w tr st).
  cbn [outcome calls client].
  destruct (outcome (m w tr st)) as [a | e]; [apply Hk | reflexivity].
Qed.

Lemma framed_tryCatch {A} (body : M A) (h : Thrown -> M A) :
  framed f body -> (forall e, framed f (h e)) -> framed f (tryCatch body h).
Proof.
  intros Hm Hk w tr st. unfold tryCatch. cbv zeta. rewrite (Hm w tr st).
  cbn [outcome calls client].
  destruct (outcome (body w tr st)) as [a | e] eqn:E; cbn [outcome calls client];
    rewrite ?E; [reflexivity | apply Hk].
Qed.
End Framed.

(** Decompose a handler along its statements; the side conditions are on
    single requests and single setters. *)
Ltac footprint :=
  repeat first
    [ apply within_bind; [|intros ?]
    | apply within_tryCatch; [|intros ?]
    | apply within_ret
    | apply within_get
    | apply within_read
    | apply within_call; [intros ?; reflexivity | reflexivity]
    | apply within_modify; intros ?; reflexivity
    | match goal with
      | |- within _ _ (match ?x with _ => _ end) => destruct x
      end ].

Ltac frame :=
  repeat first
    [ apply framed_bind; [|intros ?]
    | apply framed_tryCatch; [|intros ?]
    | apply framed_ret
    | apply framed_read
    | apply framed_call; intros ?; reflexivity
    | apply framed_modify; intros ?; reflexivity
    | match goal with
      | |- framed _ (match ?x with _ => _ end) => destruct x
      end ].

(** The part of the client the manual actions leave alone: the resume
    dialog, the pending cell, the rule cache and both pause fields. *)
Lemma runAction_footprint (a : Action) :
  within (fun c => isResumeCall c = false)
    (fun st => (resumeModal st, pendingResumeActionRef st, rules st,
                lightRulesPausedUntil st, pumpRulesPausedUntil st))
    (runAction a).
Proof.
  destruct a; unfold runAction, handleLightOn, handleLightOff, handleLightBrightness,
    handlePumpOn, handlePumpOff, fetchAll, reading, readStats, getCurrentCentralHHMM,
    newDate; cbv zeta; footprint.
Qed.

(** A manual action does not read the pause fields. *)
Lemma runAction_framed_light (v : option string) (a : Action) :
  framed (setLightRulesPausedUntil v) (runAction a).
Proof.
  destruct a; unfold runAction, handleLightOn, handleLightOff, handleLightBrightness,
    handlePumpOn, handlePumpOff, fetchAll, reading, readStats, getCurrentCentralHHMM,
    newDate; cbv zeta; frame.
Qed.

Lemma runAction_framed_pump (v : option string) (a : Action) :
  framed (setPumpRulesPausedUntil v) (runAction a).
Proof.
  destruct a; unfold runAction, handleLightOn, handleLightOff, handleLightBrightness,
    handlePumpOn, handlePumpOff, fetchAll, reading, readStats, getCurrentCentralHHMM,
    newDate; cbv zeta; frame.
Qed.

(** ** C5: an expired pause *)

(** C5. When the pause field of a class denotes an instant strictly in the
    past, a manual action of that class goes through the gate as if the
    field were absent: the action runs at once, the resume dialog and the
    pending cell stay as they were, and the run is the one obtained with
    the field set to null. *)
Theorem expired_pause_is_no_pause
  (c : ActuatorClass) (a : Action) (w : World) (tr : list Call) (st : App) :
  pauseExpired (dateParse w) (dateNow w tr) (pauseField c st) ->
  gate c a w tr st = runAction a w tr st
  /\ resumeModal (client (gate c a w tr st)) = resumeModal st
  /\ pendingResumeActionRef (client (gate c a w tr st)) = pendingResumeActionRef st
  /\ gate c a w tr (setPauseField c None st)
     = mkRun (outcome (gate c a w tr st)) (calls (gate c a w tr st))
         (setPauseField c None (client (gate c a w tr st))).
Proof.
  intros Hexp. apply pauseExpired_not_future in Hexp.
  assert (gate c a w tr st = runAction a w tr st) as Hrun.
  { destruct c; cbn [gate pauseField] in *;
      [unfold runOrShowResumeLight | unfold runOrShowResumePump];
      step; unfold bind, pausedInFuture; cbn [outcome calls client];
      rewrite Hexp; reflexivity. }
  assert (gate c a w tr (setPauseField c None st)
          = runAction a w tr (setPauseField c None st)) as Hnull.
  { destruct c; cbn [gate setPauseField];
      [unfold runOrShowResumeLight | unfold runOrShowResumePump];
      step; unfold bind, pausedInFuture; cbn [outcome calls client]; reflexivity. }
  rewrite Hnull, Hrun.
  destruct (runAction_footprint a w tr st) as [_ Hkeep].
  injection Hkeep as Hmodal Hpending _ _ _.
  split; [reflexivity|]. split; [exact Hmodal|]. split; [exact Hpending|].
  destruct c; cbn [setPauseField];
    [apply runAction_framed_light | apply runAction_framed_pump].
Qed.

Lemma expired_pause_is_no_pause_witness :
  gate LightClass (HandleLightBrightness 30) pausedWorld [] (pausedApp "900")
  = runAction (HandleLightBrightness 30) pausedWorld [] (pausedApp "900").
Proof.
  apply (expired_pause_is_no_pause LightClass (HandleLightBrightness 30) pausedWorld []
           (pausedApp "900")).
  exists 900. split; [reflexivity | reflexivity].
Defined.

Example expired_pause_runs_action :
  calls (exec (changeLightSlider 30) pausedWorld (pausedApp "900"))
  = SetLightBrightness 30 :: readingCalls.
Proof. reflexivity. Qed.

(** ** C10: one pending cell *)

(** C10. The pending action lives in one cell shared by both classes: a
    manual action attempted while its class is paused is not run, opens the
    dialog for that class and becomes the pending action, whatever was
    pending before and for whichever class. *)
Theorem pending_cell_is_shared
  (c : ActuatorClass) (a : Action) (w : World) (tr : list Call) (st : App) :
  pauseInFuture (dateParse w) (dateNow w tr) (pauseField c st) ->
  outcome (gate c a w tr st) = Returned tt
  /\ calls (gate c a w tr st) = tr
  /\ pendingResumeActionRef (client (gate c a w tr st)) = Some a
  /\ resumeModal (client (gate c a w tr st))
     = mkResumeModal true c (JS.nullish (pauseField c st) "").
Proof.
  intros Hfut. apply isPausedInFuture_true in Hfut.
  destruct c; cbn [gate pauseField] in *;
    [unfold runOrShowResumeLight | unfold runOrShowResumePump];
    step; unfold bind, pausedInFuture; cbn [outcome calls client];
    rewrite Hfut; repeat split; reflexivity.
Qed.

Lemma pending_cell_is_shared_witness :
  pendingResumeActionRef
    (client (gate PumpClass HandlePumpOff pausedWorld []
               (setPendingResumeActionRef (Some (HandleLightBrightness 30))
                  (pausedApp "5000"))))
  = Some HandlePumpOff.
Proof.
  apply (pending_cell_is_shared PumpClass HandlePumpOff pausedWorld []
           (setPendingResumeActionRef (Some (HandleLightBrightness 30)) (pausedApp "5000"))).
  exists 5000. split; [reflexivity | reflexivity].
Defined.

(** Moving the light slider and then pressing pump Off, both while paused:
    the slider move is lost. *)
Example pending_light_replaced_by_pump :
  let after_light := client (exec (changeLightSlider 30) pausedWorld (pausedApp "5000")) in
  let after_pump := client (exec clickPumpOff pausedWorld after_light) in
  pendingResumeActionRef after_light = Some (HandleLightBrightness 30)
  /\ pendingResumeActionRef after_pump = Some HandlePumpOff
  /\ rm_type (resumeModal after_pump) = PumpClass.
Proof. repeat split; reflexivity. Qed.

(** ** C4: resolving the resume gate *)

Lemma runPending_run (a : Action) (w : World) (tr : list Call) (st : App) :
  pendingResumeActionRef st = Some a ->
  runPending w tr st = runAction a w tr (setPendingResumeActionRef None st).
Proof.
  intros H. unfold runPending. step. rewrite H. step. reflexivity.
Qed.

Lemma runAction_no_resume (a : Action) (w : World) (tr : list Call) (st : App) :
  exists l,
    calls (runAction a w tr st) = (tr ++ l)%list
    /\ Forall (fun c => isResumeCall c = false) l.
Proof. destruct (runAction_footprint a w tr st) as [H _]. exact H. Qed.

Lemma resume_call_of (st : App) :
  match rm_type (resumeModal st) with
  | LightClass => call ResumeLightRules
  | PumpClass => call ResumePumpRules
  end = call (resumeCallOf st).
Proof. unfold resumeCallOf. destruct (rm_type (resumeModal st)); reflexivity. Qed.

(** C4. With an action [a] pending: keep-paused runs [a] and issues no
    resume request; resume issues the resume request of the dialog's class,
    refetches the rules and only then runs [a]; when the resume request
    fails, the error is shown (a 401 also logs the session out), nothing
    more is requested and [a] is not run; dismissing the dialog requests
    nothing and drops [a]. *)
Theorem resume_gate_resolutions (a : Action) (w : World) (tr : list Call) (st : App) :
  pendingResumeActionRef st = Some a ->
  (confirmResumeModal false w tr st
   = runAction a w tr (setPendingResumeActionRef None (closeModal st))
   /\ exists l,
        calls (confirmResumeModal false w tr st) = (tr ++ l)%list
        /\ Forall (fun c => isResumeCall c = false) l)
  /\ (forall p, api w tr (resumeCallOf st) = Resolves p ->
      confirmResumeModal true w tr st
      = runAction a w (tr ++ [resumeCallOf st; GetRules])%list
          (setPendingResumeActionRef None
             (afterFetchRules w (tr ++ [resumeCallOf st])%list (closeModal st)))
      /\ exists l,
           calls (confirmResumeModal true w tr st)
           = (tr ++ [resumeCallOf st; GetRules] ++ l)%list
           /\ Forall (fun c => isResumeCall c = false) l)
  /\ (forall e, api w tr (resumeCallOf st) = Rejects e ->
      confirmResumeModal true w tr st
      = mkRun (Returned tt) (tr ++ [resumeCallOf st])%list
          (setError (Some (messageOr e "Failed to resume rules"))
             (refused e (closeModal st))))
  /\ closeResumeModal w tr st
     = mkRun (Returned tt) tr (setPendingResumeActionRef None (closeModal st)).
Proof.
  intros Hpend.
  assert (confirmResumeModal false w tr st
          = runAction a w tr (setPendingResumeActionRef None (closeModal st))) as Hkeep.
  { unfold confirmResumeModal. step. step. step.
    apply runPending_run. exact Hpend. }
  assert (forall p, api w tr (resumeCallOf st) = Resolves p ->
          confirmResumeModal true w tr st
          = runAction a w (tr ++ [resumeCallOf st; GetRules])%list
              (setPendingResumeActionRef None
                 (afterFetchRules w (tr ++ [resumeCallOf st])%list (closeModal st)))) as Hres.
  { intros p Hp. unfold confirmResumeModal. step. step. rewrite resume_call_of.
    erewrite bind_returned; cycle 1.
    { apply tryCatch_returned.
      erewrite bind_returned; cycle 1.
      { apply call_resolves; exact Hp. }
      cbv beta. step_with fetchRules_run. reflexivity. }
    cbv beta. rewrite <- app_assoc. cbn [List.app].
    apply runPending_run.
    unfold afterFetchRules.
    destruct (api w (tr ++ [resumeCallOf st])%list GetRules) as [e | q]; [|exact Hpend].
    destruct (refused_cases e (setRulesLoading true (setRulesError None (closeModal st))))
      as [E | E]; rewrite E; exact Hpend. }
  split; [|split; [|split]].
  - split; [exact Hkeep|]. rewrite Hkeep. apply runAction_no_resume.
  - intros p Hp. split; [apply (Hres p Hp)|]. rewrite (Hres p Hp).
    destruct (runAction_no_resume a w (tr ++ [resumeCallOf st; GetRules])%list
                (setPendingResumeActionRef None
                   (afterFetchRules w (tr ++ [resumeCallOf st])%list (closeModal st))))
      as [l [E F]].
    exists l. split; [|exact F]. rewrite E, <- app_assoc. reflexivity.
  - intros e He. unfold confirmResumeModal. step. step. rewrite resume_call_of.
    erewrite bind_returned; cycle 1.
    { erewrite tryCatch_threw; cycle 1.
      { apply bind_threw. apply call_rejects; exact He. }
      cbv beta. step. reflexivity. }
    reflexivity.
  - reflexivity.
Qed.

Lemma resume_gate_resolutions_witness :
  closeResumeModal pausedWorld []
    (setPendingResumeActionRef (Some HandlePumpOff) (pausedApp "5000"))
  = mkRun (Returned tt) []
      (setPendingResumeActionRef None
         (closeModal (setPendingResumeActionRef (Some HandlePumpOff) (pausedApp "5000")))).
Proof.
  apply (resume_gate_resolutions HandlePumpOff pausedWorld []
           (setPendingResumeActionRef (Some HandlePumpOff) (pausedApp "5000"))).
  reflexivity.
Defined.

(** Pump Off pending behind a light-class dialog: keep-paused, resume, a
    failing resume, and dismissal. *)
Example resume_gate_traces :
  let st := setPendingResumeActionRef (Some HandlePumpOff) (pausedApp "5000") in
  calls (exec (confirmResumeModal false) pausedWorld st) = PumpOff :: readingCalls
  /\ calls (exec (confirmResumeModal true) pausedWorld st)
     = ResumeLightRules :: GetRules :: PumpOff :: readingCalls
  /\ calls (exec (confirmResumeModal true) unreachableWorld st) = [ResumeLightRules]
  /\ error (client (exec (confirmResumeModal true) unreachableWorld st))
     = Some "Failed to fetch"
  /\ pendingResumeActionRef (client (exec (confirmResumeModal true) unreachableWorld st))
     = Some HandlePumpOff
  /\ calls (exec closeResumeModal pausedWorld st) = [].
Proof. repeat split; reflexivity. Qed.

(** ** C3: the order of an override's requests *)


(** The requests of a confirmed manual watering, by which of them fail. *)
Lemma confirmPumpManual_calls (w : World) (tr : list Call) (st : App) :
  let minutes := pumpManualMinutes (pm_minutes (pumpManualModal st)) in
  calls (confirmPumpManual w tr st)
  = (tr ++
     match api w tr (PausePumpRulesForMinutes minutes) with
     | Rejects _ => [PausePumpRulesForMinutes minutes]
     | Resolves _ =>
     match api w (tr ++ [PausePumpRulesForMinutes minutes])
             (SetManualPumpOffInMinutes minutes) with
     | Rejects _ => [PausePumpRulesForMinutes minutes; SetManualPumpOffInMinutes minutes]
     | Resolves _ =>
     match api w (tr ++ [PausePumpRulesForMinutes minutes;
                         SetManualPumpOffInMinutes minutes; GetRules])
             (SetPumpSpeed 100) with
     | Rejects _ =>
         [PausePumpRulesForMinutes minutes; SetManualPumpOffInMinutes minutes; GetRules;
          SetPumpSpeed 100]
     | Resolves _ =>
     match api w (tr ++ [PausePumpRulesForMinutes minutes;
                         SetManualPumpOffInMinutes minutes; GetRules; SetPumpSpeed 100])
             PumpOn with
     | Rejects _ =>
         [PausePumpRulesForMinutes minutes; SetManualPumpOffInMinutes minutes; GetRules;
          SetPumpSpeed 100; PumpOn]
     | Resolves _ => pumpManualCalls st
     end end end end)%list.
Proof.
  cbv zeta. unfold confirmPumpManual, pumpManualCalls. step. step.
  set (minutes := pumpManualMinutes (pm_minutes (pumpManualModal st))).
  destruct (api w tr (PausePumpRulesForMinutes minutes)) as [e1 | p1] eqn:E1.
  { erewrite tryCatch_threw; [reflexivity|]. apply bind_threw, call_rejects, E1. }
  destruct (api w (tr ++ [PausePumpRulesForMinutes minutes])
              (SetManualPumpOffInMinutes minutes)) as [e2 | p2] eqn:E2.
  { erewrite tryCatch_threw; [cbn [modify calls]; reflexivity|].
    erewrite bind_returned; [|apply call_resolves, E1]. cbv beta.
    erewrite bind_threw; [|apply call_rejects, E2].
    repeat (rewrite <- app_assoc; cbn [List.app]). reflexivity. }
  destruct (api w (tr ++ [PausePumpRulesForMinutes minutes;
                          SetManualPumpOffInMinutes minutes; GetRules])
              (SetPumpSpeed 100)) as [e3 | p3] eqn:E3.
  { erewrite tryCatch_threw; [cbn [modify calls]; reflexivity|].
    erewrite bind_returned; [|apply call_resolves, E1]. cbv beta.
    erewrite bind_returned; [|apply call_resolves, E2]. cbv beta.
    step_with fetchRules_run. repeat (rewrite <- app_assoc; cbn [List.app]).
    erewrite bind_threw; [|apply call_rejects, E3].
    repeat (rewrite <- app_assoc; cbn [List.app]). reflexivity. }
  destruct (api w (tr ++ [PausePumpRulesForMinutes minutes;
                          SetManualPumpOffInMinutes minutes; GetRules; SetPumpSpeed 100])
              PumpOn) as [e4 | p4] eqn:E4.
  { erewrite tryCatch_threw; [cbn [modify calls]; reflexivity|].
    erewrite bind_returned; [|apply call_resolves, E1]. cbv beta.
    erewrite bind_returned; [|apply call_resolves, E2]. cbv beta.
    step_with fetchRules_run. repeat (rewrite <- app_assoc; cbn [List.app]).
    erewrite bind_returned; [|apply call_resolves, E3]. cbv beta.
    repeat (rewrite <- app_assoc; cbn [List.app]).
    erewrite bind_threw; [|apply call_rejects, E4].
    repeat (rewrite <- app_assoc; cbn [List.app]). reflexivity. }
  erewrite tryCatch_returned; [cbn [calls]; reflexivity|].
  erewrite bind_returned; [|apply call_resolves, E1]. cbv beta.
  erewrite bind_returned; [|apply call_resolves, E2]. cbv beta.
  step_with fetchRules_run. repeat (rewrite <- app_assoc; cbn [List.app]).
  erewrite bind_returned; [|apply call_resolves, E3]. cbv beta.
  repeat (rewrite <- app_assoc; cbn [List.app]).
  erewrite bind_returned; [|apply call_resolves, E4]. cbv beta.
  repeat (rewrite <- app_assoc; cbn [List.app]).
  rewrite fetchAll_run. repeat (rewrite <- app_assoc; cbn [List.app]). reflexivity.
Qed.


Example light_override_trace :
  calls (exec confirmLightOverride pausedWorld
           (setLightOverrideModal (mkLightOverrideModal true Off "90") (pausedApp "900")))
  = ([PauseLightRulesForMinutes 90; GetRules; LightOff] ++ readingCalls)%list.
Proof. reflexivity. Qed.

Example manual_watering_trace :
  calls (exec confirmPumpManual pausedWorld
           (setPumpManualModal (mkPumpManualModal true "10") (pausedApp "900")))
  = ([PausePumpRulesForMinutes 10; SetManualPumpOffInMinutes 10; GetRules;
      SetPumpSpeed 100; PumpOn] ++ readingCalls)%list.
Proof. reflexivity. Qed.

Example override_stops_when_pause_fails :
  calls (exec confirmLightOverride unreachableWorld
           (setLightOverrideModal (mkLightOverrideModal true On "90") (pausedApp "900")))
  = [PauseLightRulesForMinutes 90]
  /\ error (client (exec confirmLightOverride unreachableWorld
           (setLightOverrideModal (mkLightOverrideModal true On "90") (pausedApp "900"))))
     = Some "Failed to fetch".
Proof. split; reflexivity. Qed.

(** * Further properties of the modelled code *)

(** ** The range test on minutes *)

Lemma isTimeInRange_minutes (now start end_ : Time) :
  validTime now -> validTime start -> validTime end_ ->
  isTimeInRange (hhmm now) (hhmm start) (Some (hhmm end_))
  = if 60 * hour start + minute start <? 60 * hour end_ + minute end_
    then (60 * hour start + minute start <=? 60 * hour now + minute now)
         && (60 * hour now + minute now <? 60 * hour end_ + minute end_)
    else (60 * hour start + minute start <=? 60 * hour now + minute now)
         || (60 * hour now + minute now <? 60 * hour end_ + minute end_).
Proof.
  intros Hn Hs He. unfold isTimeInRange. rewrite hhmm_not_empty.
  rewrite !hhmmToMinutes_hhmm by assumption. reflexivity.
Qed.

(** X1. A range whose end equals its start covers the whole day. *)
Theorem range_with_equal_ends_is_all_day (now start : Time) :
  validTime now -> validTime start ->
  isTimeInRange (hhmm now) (hhmm start) (Some (hhmm start)) = true.
Proof.
  intros Hn Hs. rewrite isTimeInRange_minutes by assumption.
  rewrite Z.ltb_irrefl.
  destruct (60 * hour start + minute start <=? 60 * hour now + minute now) eqn:E;
    [reflexivity|].
  apply Z.leb_gt in E. apply Z.ltb_lt in E. rewrite E. reflexivity.
Qed.

Lemma range_with_equal_ends_is_all_day_witness :
  isTimeInRange (hhmm (mkTime 3 7)) (hhmm (mkTime 6 0)) (Some (hhmm (mkTime 6 0))) = true.
Proof.
  apply (range_with_equal_ends_is_all_day (mkTime 3 7) (mkTime 6 0));
    unfold validTime; cbn; lia.
Defined.

(** X2. For distinct ends, a range and the range with its ends swapped
    split the day: every time is in exactly one of them. *)
Theorem swapped_range_is_complement (now start end_ : Time) :
  validTime now -> validTime start -> validTime end_ -> start <> end_ ->
  isTimeInRange (hhmm now) (hhmm end_) (Some (hhmm start))
  = negb (isTimeInRange (hhmm now) (hhmm start) (Some (hhmm end_))).
Proof.
  intros Hn Hs He Hne.
  assert (60 * hour start + minute start <> 60 * hour end_ + minute end_) as Hm
    by (intros H; apply Hne, (time_eq_minutes start end_ Hs He), H).
  rewrite !isTimeInRange_minutes by assumption.
  destruct (60 * hour start + minute start <? 60 * hour end_ + minute end_) eqn:E1;
  destruct (60 * hour end_ + minute end_ <? 60 * hour start + minute start) eqn:E2;
  destruct (60 * hour start + minute start <=? 60 * hour now + minute now) eqn:E3;
  destruct (60 * hour end_ + minute end_ <=? 60 * hour now + minute now) eqn:E4;
  destruct (60 * hour now + minute now <? 60 * hour end_ + minute end_) eqn:E5;
  destruct (60 * hour now + minute now <? 60 * hour start + minute start) eqn:E6;
  try reflexivity;
  repeat match goal with
         | H : (_ <? _) = true |- _ => apply Z.ltb_lt in H
         | H : (_ <? _) = false |- _ => apply Z.ltb_ge in H
         | H : (_ <=? _) = true |- _ => apply Z.leb_le in H
         | H : (_ <=? _) = false |- _ => apply Z.leb_gt in H
         end; lia.
Qed.

Lemma swapped_range_is_complement_witness :
  isTimeInRange (hhmm (mkTime 23 30)) (hhmm (mkTime 6 0)) (Some (hhmm (mkTime 22 0)))
  = negb (isTimeInRange (hhmm (mkTime 23 30)) (hhmm (mkTime 22 0)) (Some (hhmm (mkTime 6 0)))).
Proof.
  apply (swapped_range_is_complement (mkTime 23 30) (mkTime 22 0) (mkTime 6 0));
    try (unfold validTime; cbn; lia).
  discriminate.
Defined.

(** X3. A clock reading made of digits, colons and white space whose
    hour or minute field is not a number (white space stands between its
    digits) is in no range that has an end. *)
Theorem unparsable_now_matches_no_range (now start e : string) :
  plainClockText now = true ->
  hhmmToMinutes now = JS.NaN -> e <> "" ->
  isTimeInRange now start (Some e) = false.
Proof.
  intros _ Hnow He. apply String.eqb_neq in He.
  unfold isTimeInRange. rewrite He, Hnow. unfold JS.NaN, JS.ge, JS.lt.
  destruct (JS.gt (hhmmToMinutes e) (hhmmToMinutes start)); reflexivity.
Qed.

Lemma unparsable_now_matches_no_range_witness :
  isTimeInRange "0 9:15" "08:00" (Some "10:00") = false.
Proof.
  apply (unparsable_now_matches_no_range "0 9:15" "08:00" "10:00").
  - reflexivity.
  - reflexivity.
  - discriminate.
Defined.

(** ** The effective brightness as a function of the rule set *)

(** X4. The effective brightness does not depend on the order of the
    rules. *)
Theorem effective_brightness_ignores_order (now : string) (rules rules' : list ScheduleRule) :
  (forall r, In r rules <-> In r rules') ->
  getEffectiveLightBrightnessFromRules now rules
  = getEffectiveLightBrightnessFromRules now rules'.
Proof.
  intros Hsame.
  assert (forall b, In b (activeBrightness now rules) <-> In b (activeBrightness now rules'))
    as Hb.
  { intros b. rewrite !activeBrightness_In.
    split; intros [l [Hl H]]; exists l; (split; [apply Hsame, Hl | exact H]). }
  destruct (getEffectiveLightBrightnessFromRules now rules) as [m|] eqn:E.
  - symmetry. apply effective_some_iff. apply effective_some_iff in E.
    destruct E as [Hin Hall]. split; [apply Hb, Hin | intros b H; apply Hall, Hb, H].
  - symmetry. apply effective_none_iff. apply effective_none_iff in E.
    destruct (activeBrightness now rules') as [|b bs]; [reflexivity|].
    assert (In b (activeBrightness now rules)) as H by (apply Hb; left; reflexivity).
    rewrite E in H. destruct H.
Qed.

Lemma effective_brightness_ignores_order_witness :
  getEffectiveLightBrightnessFromRules "09:15"
    [Light (mkLightRule "a" None None "08:00" (Some "10:00") (Some 40));
     Light (mkLightRule "b" None None "09:00" (Some "09:30") (Some 80))]
  = getEffectiveLightBrightnessFromRules "09:15"
    [Light (mkLightRule "b" None None "09:00" (Some "09:30") (Some 80));
     Light (mkLightRule "a" None None "08:00" (Some "10:00") (Some 40))].
Proof.
  apply effective_brightness_ignores_order.
  intros r. cbn. tauto.
Defined.

(** X5. Pump rules, light rules whose [enabled] is [false] and light rules
    whose [paused] is [true] can be dropped from the rule set without
    changing the effective brightness; when every rule is of these kinds
    there is no active rule, whatever the time. *)
Theorem effective_brightness_ignores_inactive (now : string) (rules : list ScheduleRule) :
  getEffectiveLightBrightnessFromRules now rules
  = getEffectiveLightBrightnessFromRules now
      (filter (fun r => negb (ruleLeftOut r)) rules)
  /\ ((forall r, In r rules -> ruleLeftOut r = true) ->
      getEffectiveLightBrightnessFromRules now rules = None).
Proof.
  split.
  - unfold getEffectiveLightBrightnessFromRules. generalize (@None Z) as acc.
    induction rules as [|r rules IH]; intros acc; [reflexivity|].
    cbn [filter fold_left]. destruct r as [l|p].
    + rewrite <- lightRuleConsidered_leftOut.
      destruct (lightRuleConsidered l) eqn:E.
      * cbn [fold_left]. apply IH.
      * rewrite <- IH. unfold effectiveStep at 2. rewrite E. reflexivity.
    + apply IH.
  - intros Hoff. apply effective_none_iff.
    destruct (activeBrightness now rules) as [|b bs] eqn:E; [reflexivity|].
    assert (In b (activeBrightness now rules)) as H by (rewrite E; left; reflexivity).
    apply activeBrightness_In in H. destruct H as [l [Hl [Ha _]]].
    unfold lightRuleActive in Ha. rewrite lightRuleConsidered_leftOut in Ha.
    rewrite (Hoff _ Hl) in Ha. discriminate Ha.
Qed.

(** A disabled rule, a paused rule and a pump rule are dropped; the one
    remaining rule decides. *)
Example effective_brightness_drops_inactive :
  filter (fun r => negb (ruleLeftOut r))
    [Light (mkLightRule "a" (Some false) None "08:00" (Some "10:00") (Some 90));
     Light (mkLightRule "b" None (Some true) "08:00" (Some "10:00") (Some 80));
     Pump (mkPumpRule "p" None None "09:15" 5);
     Light (mkLightRule "c" (Some true) (Some false) "08:00" (Some "10:00") (Some 40))]
  = [Light (mkLightRule "c" (Some true) (Some false) "08:00" (Some "10:00") (Some 40))]
  /\ getEffectiveLightBrightnessFromRules "09:15"
       [Light (mkLightRule "a" (Some false) None "08:00" (Some "10:00") (Some 90));
        Light (mkLightRule "b" None (Some true) "08:00" (Some "10:00") (Some 80));
        Pump (mkPumpRule "p" None None "09:15" 5);
        Light (mkLightRule "c" (Some true) (Some false) "08:00" (Some "10:00") (Some 40))]
     = Some 40.
Proof. split; reflexivity. Qed.

(** ** Manual actions: when they prompt, what they request *)

(** The shape shared by the manual actions: one actuator request, then a
    refresh; a failure of the request is shown and ends the action. *)
Lemma guarded_run (c : Call) (msg : string) (w : World) (tr : list Call) (st : App) :
  tryCatch (call c ;; fetchAll)
    (fun e => modify (setError (Some (messageOr e msg)))) w tr st
  = match api w tr c with
    | Resolves _ =>
        mkRun (Returned tt) (tr ++ c :: readingCalls) (afterFetchAll w (tr ++ [c]) st)
    | Rejects e =>
        mkRun (Returned tt) (tr ++ [c]) (setError (Some (messageOr e msg)) (refused e st))
    end.
Proof.
  destruct (api w tr c) as [e | p] eqn:E.
  - erewrite tryCatch_threw; [reflexivity|]. apply bind_threw, call_rejects, E.
  - apply tryCatch_returned.
    erewrite bind_returned; [|apply call_resolves, E]. cbv beta.
    rewrite fetchAll_run, <- app_assoc. reflexivity.
Qed.

Lemma trace_grows (tr : list Call) (c : Call) (l : list Call) : (tr ++ c :: l)%list <> tr.
Proof.
  intros H. rewrite <- (app_nil_r tr) in H at 2. apply app_inv_head in H. discriminate H.
Qed.

Lemma guarded_run_calls (c : Call) (msg : string) (w : World) (tr : list Call) (st : App) :
  exists l,
    calls (tryCatch (call c ;; fetchAll)
             (fun e => modify (setError (Some (messageOr e msg)))) w tr st)
    = (tr ++ c :: l)%list.
Proof.
  rewrite guarded_run. destruct (api w tr c); eexists; reflexivity.
Qed.

Lemma guarded_run_prompt (c : Call) (msg : string) (w : World) (tr : list Call) (st : App) :
  lightOverrideModal
    (client (tryCatch (call c ;; fetchAll)
               (fun e => modify (setError (Some (messageOr e msg)))) w tr st))
  = lightOverrideModal st.
Proof.
  rewrite guarded_run. destruct (api w tr c) as [e | p]; cbn [client].
  - destruct (refused_cases e st) as [E | E]; rewrite E; reflexivity.
  - unfold afterFetchAll. cbv zeta.
    destruct (afterReads_cases w (tr ++ [c]) (setError None st)) as [E | E]; rewrite E;
      destruct (lightBrightness (freshReadings w (tr ++ [c]))); reflexivity.
Qed.

Lemma handleLightOn_run (rules : list ScheduleRule) (w : World) (tr : list Call) (st : App) :
  handleLightOn rules w tr st
  = match getEffectiveLightBrightnessFromRules (centralHHMM w tr) rules with
    | Some 0 =>
        mkRun (Returned tt) tr (setLightOverrideModal (mkLightOverrideModal true On "60") st)
    | _ =>
        tryCatch (call LightOn ;; fetchAll)
          (fun e => modify (setError (Some (messageOr e "Light on failed")))) w tr st
    end.
Proof.
  unfold handleLightOn. step. cbv zeta.
  destruct (getEffectiveLightBrightnessFromRules (centralHHMM w tr) rules) as [[|p|p]|];
    reflexivity.
Qed.

Lemma handleLightOff_run (rules : list ScheduleRule) (w : World) (tr : list Call) (st : App) :
  handleLightOff rules w tr st
  = if 0 <? JS.nullish (getEffectiveLightBrightnessFromRules (centralHHMM w tr) rules) 0
    then mkRun (Returned tt) tr
           (setLightOverrideModal (mkLightOverrideModal true Off "60") st)
    else tryCatch (call LightOff ;; fetchAll)
           (fun e => modify (setError (Some (messageOr e "Light off failed")))) w tr st.
Proof.
  unfold handleLightOff. step. cbv zeta.
  destruct (0 <? JS.nullish
                   (getEffectiveLightBrightnessFromRules (centralHHMM w tr) rules) 0);
    reflexivity.
Qed.

Lemma rules_want_on_iff (now : string) (rules : list ScheduleRule) :
  (0 <? JS.nullish (getEffectiveLightBrightnessFromRules now rules) 0) = true
  <-> exists b, In b (activeBrightness now rules) /\ 0 < b.
Proof.
  rewrite Z.ltb_lt. split.
  - destruct (getEffectiveLightBrightnessFromRules now rules) as [m|] eqn:E;
      cbn [JS.nullish]; [|lia].
    intros Hm. apply effective_some_iff in E. destruct E as [Hin _].
    exists m. split; assumption.
  - intros [b [Hin Hb]].
    destruct (getEffectiveLightBrightnessFromRules now rules) as [m|] eqn:E;
      cbn [JS.nullish].
    + apply effective_some_iff in E. destruct E as [_ Hall].
      pose proof (Hall b Hin). lia.
    + apply effective_none_iff in E. rewrite E in Hin. destruct Hin.
Qed.

(** X6. Light On is intercepted by the override prompt exactly when the
    active light rules exist and all ask for 0%: then nothing is requested
    and the prompt opens for "on" with 60 minutes.  In every other case,
    also when no rule is active, the first request is the light-on
    command and the prompt is left as it was. *)
Theorem light_on_prompts_iff_rules_say_off
  (rules : list ScheduleRule) (w : World) (tr : list Call) (st : App) :
  (calls (handleLightOn rules w tr st) = tr
   <-> isMaximum 0 (activeBrightness (centralHHMM w tr) rules))
  /\ (isMaximum 0 (activeBrightness (centralHHMM w tr) rules) ->
      client (handleLightOn rules w tr st)
      = setLightOverrideModal (mkLightOverrideModal true On "60") st)
  /\ (~ isMaximum 0 (activeBrightness (centralHHMM w tr) rules) ->
      (exists l, calls (handleLightOn rules w tr st) = (tr ++ LightOn :: l)%list)
      /\ lightOverrideModal (client (handleLightOn rules w tr st)) = lightOverrideModal st).
Proof.
  rewrite handleLightOn_run.
  destruct (getEffectiveLightBrightnessFromRules (centralHHMM w tr) rules) as [m|] eqn:E.
  - assert (m = 0 <-> isMaximum 0 (activeBrightness (centralHHMM w tr) rules)) as Hm.
    { split.
      - intros ->. apply effective_some_iff, E.
      - intros H0. apply effective_some_iff in H0. congruence. }
    destruct m as [|p|p].
    + split; [split; [intros _; apply Hm; reflexivity | reflexivity]|].
      split; [reflexivity|]. intros Hn. exfalso. apply Hn, Hm. reflexivity.
    + assert (~ isMaximum 0 (activeBrightness (centralHHMM w tr) rules)) as Hn
        by (intros H0; apply Hm in H0; discriminate H0).
      destruct (guarded_run_calls LightOn "Light on failed" w tr st) as [l Hl].
      split; [split; [intros H; rewrite Hl in H; destruct (trace_grows _ _ _ H)
                     | intros H; destruct (Hn H)]|].
      split; [intros H; destruct (Hn H)|]. intros _.
      split; [exists l; exact Hl|].
      apply guarded_run_prompt.
    + assert (~ isMaximum 0 (activeBrightness (centralHHMM w tr) rules)) as Hn
        by (intros H0; apply Hm in H0; discriminate H0).
      destruct (guarded_run_calls LightOn "Light on failed" w tr st) as [l Hl].
      split; [split; [intros H; rewrite Hl in H; destruct (trace_grows _ _ _ H)
                     | intros H; destruct (Hn H)]|].
      split; [intros H; destruct (Hn H)|]. intros _.
      split; [exists l; exact Hl|].
      apply guarded_run_prompt.
  - assert (~ isMaximum 0 (activeBrightness (centralHHMM w tr) rules)) as Hn.
    { intros H0. apply effective_some_iff in H0. congruence. }
    destruct (guarded_run_calls LightOn "Light on failed" w tr st) as [l Hl].
    split; [split; [intros H; rewrite Hl in H; destruct (trace_grows _ _ _ H)
                   | intros H; destruct (Hn H)]|].
    split; [intros H; destruct (Hn H)|]. intros _.
    split; [exists l; exact Hl|].
    apply guarded_run_prompt.
Qed.

(** X7. Light Off is intercepted by the override prompt exactly when some
    active light rule asks for more than 0%: then nothing is requested and
    the prompt opens for "off" with 60 minutes; otherwise the first request
    is the light-off command. *)
Theorem light_off_prompts_iff_rules_say_on
  (rules : list ScheduleRule) (w : World) (tr : list Call) (st : App) :
  (calls (handleLightOff rules w tr st) = tr
   <-> exists b, In b (activeBrightness (centralHHMM w tr) rules) /\ 0 < b)
  /\ ((exists b, In b (activeBrightness (centralHHMM w tr) rules) /\ 0 < b) ->
      client (handleLightOff rules w tr st)
      = setLightOverrideModal (mkLightOverrideModal true Off "60") st)
  /\ (~ (exists b, In b (activeBrightness (centralHHMM w tr) rules) /\ 0 < b) ->
      exists l, calls (handleLightOff rules w tr st) = (tr ++ LightOff :: l)%list).
Proof.
  rewrite handleLightOff_run.
  pose proof (rules_want_on_iff (centralHHMM w tr) rules) as Hiff.
  destruct (0 <? JS.nullish
                   (getEffectiveLightBrightnessFromRules (centralHHMM w tr) rules) 0).
  - assert (exists b, In b (activeBrightness (centralHHMM w tr) rules) /\ 0 < b) as Hon
      by (apply Hiff; reflexivity).
    split; [split; [intros _; exact Hon | reflexivity]|].
    split; [reflexivity | intros Hn; destruct (Hn Hon)].
  - assert (~ exists b, In b (activeBrightness (centralHHMM w tr) rules) /\ 0 < b) as Hn
      by (intros H; apply Hiff in H; discriminate H).
    destruct (guarded_run_calls LightOff "Light off failed" w tr st) as [l Hl].
    split; [split; [intros H; rewrite Hl in H; destruct (trace_grows _ _ _ H)
                   | intros H; destruct (Hn H)]|].
    split; [intros H; destruct (Hn H) | intros _; exists l; exact Hl].
Qed.

(** X8. For one rule set and one clock reading, the On and the Off button
    are never both intercepted, and with no active light rule neither
    is. *)
Theorem light_prompts_exclude_each_other
  (rules : list ScheduleRule) (w : World) (tr : list Call) (st st' : App) :
  ~ (calls (handleLightOn rules w tr st) = tr
     /\ calls (handleLightOff rules w tr st') = tr)
  /\ (activeBrightness (centralHHMM w tr) rules = [] ->
      calls (handleLightOn rules w tr st) <> tr
      /\ calls (handleLightOff rules w tr st') <> tr).
Proof.
  rewrite handleLightOn_run, handleLightOff_run.
  destruct (getEffectiveLightBrightnessFromRules (centralHHMM w tr) rules) as [m|] eqn:E.
  - split.
    + cbn [JS.nullish]. destruct m as [|p|p].
      * cbn [Z.ltb Z.compare].
        destruct (guarded_run_calls LightOff "Light off failed" w tr st') as [l Hl].
        intros [_ H]. rewrite Hl in H. destruct (trace_grows _ _ _ H).
      * destruct (guarded_run_calls LightOn "Light on failed" w tr st) as [l Hl].
        intros [H _]. rewrite Hl in H. destruct (trace_grows _ _ _ H).
      * destruct (guarded_run_calls LightOn "Light on failed" w tr st) as [l Hl].
        intros [H _]. rewrite Hl in H. destruct (trace_grows _ _ _ H).
    + intros Hnil. apply effective_none_iff in Hnil. congruence.
  - cbn [JS.nullish Z.ltb Z.compare].
    destruct (guarded_run_calls LightOn "Light on failed" w tr st) as [l Hl].
    destruct (guarded_run_calls LightOff "Light off failed" w tr st') as [l' Hl'].
    split.
    + intros [H _]. rewrite Hl in H. destruct (trace_grows _ _ _ H).
    + intros _. split; intros H; [rewrite Hl in H | rewrite Hl' in H];
        destruct (trace_grows _ _ _ H).
Qed.


(** ** Refreshes *)

(** X10. A refresh always returns, issues exactly the seven reads in the
    same order, and ends with the error cleared, the loading flag down and
    the update time stamped, also when every read fails: a failed read never
    shows as an error. *)
Theorem refresh_never_reports_failure (w : World) (tr : list Call) (st : App) :
  outcome (fetchAll w tr st) = Returned tt
  /\ calls (fetchAll w tr st) = (tr ++ readingCalls)%list
  /\ error (client (fetchAll w tr st)) = None
  /\ loading (client (fetchAll w tr st)) = false
  /\ lastUpdate (client (fetchAll w tr st)) = Some (dateNow w (tr ++ readingCalls)).
Proof.
  rewrite fetchAll_run. cbn [outcome calls client]. unfold afterFetchAll. cbv zeta.
  destruct (afterReads_cases w tr (setError None st)) as [E | E]; rewrite E;
    destruct (lightBrightness (freshReadings w tr)); repeat split; reflexivity.
Qed.

(** X11. A rule fetch replaces and never merges: it always returns after
    one request, and the rule list, both pause fields and the rule error it
    leaves depend only on the device's answer, not on what was cached.  On
    an answer, they are the reported rules (none reported: the empty list)
    and the reported pause fields, with no error. *)
Theorem fetchRules_replaces_cache (w : World) (tr : list Call) (st st' : App) :
  outcome (fetchRules w tr st) = Returned tt
  /\ calls (fetchRules w tr st) = (tr ++ [GetRules])%list
  /\ rulesLoading (client (fetchRules w tr st)) = false
  /\ rules (client (fetchRules w tr st)) = rules (client (fetchRules w tr st'))
  /\ lightRulesPausedUntil (client (fetchRules w tr st))
     = lightRulesPausedUntil (client (fetchRules w tr st'))
  /\ pumpRulesPausedUntil (client (fetchRules w tr st))
     = pumpRulesPausedUntil (client (fetchRules w tr st'))
  /\ rulesError (client (fetchRules w tr st)) = rulesError (client (fetchRules w tr st'))
  /\ (forall r, api w tr GetRules = Resolves (RulesRes r) ->
      rules (client (fetchRules w tr st)) = JS.nullish (res_rules r) []
      /\ lightRulesPausedUntil (client (fetchRules w tr st)) = light_rules_paused_until r
      /\ pumpRulesPausedUntil (client (fetchRules w tr st)) = pump_rules_paused_until r
      /\ rulesError (client (fetchRules w tr st)) = None).
Proof.
  rewrite !fetchRules_run. cbn [outcome calls client]. unfold afterFetchRules. cbv zeta.
  destruct (api w tr GetRules) as [e | p].
  - repeat (split; [reflexivity|]). intros r H. discriminate H.
  - repeat (split; [reflexivity|]). intros r [= ->]. repeat split; reflexivity.
Qed.

(** ** No handler throws *)

Lemma settles_ret {A} (a : A) : settles (ret a).
Proof. intros w tr st. exists a. reflexivity. Qed.

Lemma settles_read {A} (f : World -> list Call -> A) :
  settles (fun w tr st => mkRun (Returned (f w tr)) tr st).
Proof. intros w tr st. eexists. reflexivity. Qed.

Lemma settles_get : settles get.
Proof. intros w tr st. eexists. reflexivity. Qed.

Lemma settles_modify (g : App -> App) : settles (modify g).
Proof. intros w tr st. exists tt. reflexivity. Qed.

Lemma settles_bind {A C} (m : M A) (k : A -> M C) :
  settles m -> (forall a, settles (k a)) -> settles (bind m k).
Proof.
  intros Hm Hk w tr st. unfold bind. cbv zeta.
  destruct (Hm w tr st) as [a Ha]. rewrite Ha. apply Hk.
Qed.

Lemma settles_tryCatch {A} (body : M A) (h : Thrown -> M A) :
  (forall e, settles (h e)) -> settles (tryCatch body h).
Proof.
  intros Hh w tr st. unfold tryCatch. cbv zeta.
  destruct (outcome (body w tr st)) as [a | e] eqn:E.
  - exists a. exact E.
  - apply Hh.
Qed.

Lemma settles_fetchAll : settles fetchAll.
Proof. intros w tr st. exists tt. rewrite fetchAll_run. reflexivity. Qed.

Lemma settles_fetchRules : settles fetchRules.
Proof. intros w tr st. exists tt. rewrite fetchRules_run. reflexivity. Qed.

Ltac settle :=
  repeat first
    [ apply settles_fetchAll
    | apply settles_fetchRules
    | apply settles_tryCatch; intros ?
    | apply settles_bind; [|intros ?]
    | apply settles_ret
    | apply settles_get
    | apply settles_read
    | apply settles_modify
    | match goal with
      | |- settles (match ?x with _ => _ end) => destruct x
      end ].

Lemma settles_runAction (a : Action) : settles (runAction a).
Proof.
  destruct a; unfold runAction, handleLightOn, handleLightOff, handleLightBrightness,
    handlePumpOn, handlePumpOff, getCurrentCentralHHMM; cbv zeta; settle.
Qed.

(** X12. Every handler catches what it awaits: the manual actions, both
    confirmations, both gates, the resume dialog's resolutions, the polling
    effect and its tick all return whatever requests fail. *)
Theorem handlers_never_throw :
  (forall a, settles (runAction a))
  /\ settles confirmLightOverride
  /\ settles confirmPumpManual
  /\ (forall c a, settles (gate c a))
  /\ (forall resume, settles (confirmResumeModal resume))
  /\ settles closeResumeModal
  /\ (forall paused, settles (pollingTick paused))
  /\ settles pollingEffect.
Proof.
  split; [apply settles_runAction|].
  split; [unfold confirmLightOverride; settle|].
  split; [unfold confirmPumpManual; settle|].
  split.
  { intros c a. destruct c; cbn [gate];
      [unfold runOrShowResumeLight | unfold runOrShowResumePump];
      unfold pausedInFuture; settle; apply settles_runAction. }
  split.
  { intros resume. unfold confirmResumeModal, runPending. settle;
      apply settles_runAction. }
  split; [unfold closeResumeModal; settle|].
  split; [intros paused; unfold pollingTick; settle|].
  unfold pollingEffect, pausedInFuture. settle.
Qed.

(** ** Overrides that fail half-way *)



(** X14. Manual watering never starts the pump unless the pause, the
    remote auto-off and the full-speed command were all accepted before. *)
Theorem pump_starts_only_after_auto_off
  (w : World) (tr l : list Call) (st : App) :
  calls (confirmPumpManual w tr st) = (tr ++ l)%list ->
  In PumpOn l ->
  (exists p,
     api w tr (PausePumpRulesForMinutes
                 (pumpManualMinutes (pm_minutes (pumpManualModal st))))
     = Resolves p)
  /\ (exists p,
        api w (tr ++ [PausePumpRulesForMinutes
                        (pumpManualMinutes (pm_minutes (pumpManualModal st)))])
          (SetManualPumpOffInMinutes
             (pumpManualMinutes (pm_minutes (pumpManualModal st))))
        = Resolves p)
  /\ (exists p,
        api w (tr ++ [PausePumpRulesForMinutes
                        (pumpManualMinutes (pm_minutes (pumpManualModal st)));
                      SetManualPumpOffInMinutes
                        (pumpManualMinutes (pm_minutes (pumpManualModal st)));
                      GetRules])
          (SetPumpSpeed 100)
        = Resolves p).
Proof.
  intros Hcalls Hin.
  pose proof (confirmPumpManual_calls w tr st) as H. cbv zeta in H.
  rewrite Hcalls in H. apply app_inv_head in H. subst l.
  set (minutes := pumpManualMinutes (pm_minutes (pumpManualModal st))) in *.
  destruct (api w tr (PausePumpRulesForMinutes minutes)) as [e1 | p1].
  { destruct Hin as [H | []]. discriminate H. }
  destruct (api w (tr ++ [PausePumpRulesForMinutes minutes])
              (SetManualPumpOffInMinutes minutes)) as [e2 | p2].
  { destruct Hin as [H | [H | []]]; discriminate H. }
  destruct (api w (tr ++ [PausePumpRulesForMinutes minutes;
                          SetManualPumpOffInMinutes minutes; GetRules])
              (SetPumpSpeed 100)) as [e3 | p3].
  { destruct Hin as [H | [H | [H | [H | []]]]]; discriminate H. }
  repeat split; eexists; reflexivity.
Qed.

Lemma pump_starts_only_after_auto_off_witness :
  exists p,
    api pausedWorld [PausePumpRulesForMinutes 10] (SetManualPumpOffInMinutes 10)
    = Resolves p.
Proof.
  destruct (pump_starts_only_after_auto_off pausedWorld []
              ([PausePumpRulesForMinutes 10; SetManualPumpOffInMinutes 10; GetRules;
                SetPumpSpeed 100; PumpOn] ++ readingCalls)%list
              (setPumpManualModal (mkPumpManualModal true "10") (pausedApp "900")))
    as [_ [H _]].
  - reflexivity.
  - cbn. tauto.
  - exact H.
Defined.

(** ** The reconciliation loop *)

(** X15. A tick set up while no pause was in the future only refreshes the
    readings: it never asks for the rules and leaves the rule list and both
    pause fields as they are.  A tick set up while a pause was in the
    future also refetches the rules, after the readings. *)
Theorem tick_refetches_rules_only_when_paused (w : World) (tr : list Call) (st : App) :
  calls (pollingTick false w tr st) = (tr ++ readingCalls)%list
  /\ rules (client (pollingTick false w tr st)) = rules st
  /\ lightRulesPausedUntil (client (pollingTick false w tr st)) = lightRulesPausedUntil st
  /\ pumpRulesPausedUntil (client (pollingTick false w tr st)) = pumpRulesPausedUntil st
  /\ calls (pollingTick true w tr st) = (tr ++ readingCalls ++ [GetRules])%list.
Proof.
  unfold pollingTick.
  rewrite !(bind_returned _ _ _ _ _ _ _ _ (fetchAll_run w tr st)).
  rewrite fetchRules_run. cbn [ret calls client]. rewrite <- app_assoc.
  unfold afterFetchAll. cbv zeta.
  destruct (afterReads_cases w tr (setError None st)) as [E | E]; rewrite E;
    destruct (lightBrightness (freshReadings w tr)); repeat split; reflexivity.
Qed.

(** X16. Without a token (null or empty) the polling effect requests
    nothing and sets no timer.  With one it refreshes the readings once and
    sets a timer whose tick refetches the rules exactly when its period is
    the short one. *)
Theorem polling_effect_shape (w : World) (tr : list Call) (st : App) :
  (token st = None \/ token st = Some "" ->
   pollingEffect w tr st = mkRun (Returned None) tr st)
  /\ (forall t, token st = Some t -> t <> "" ->
      calls (pollingEffect w tr st) = (tr ++ readingCalls)%list
      /\ exists timer,
           outcome (pollingEffect w tr st) = Returned (Some timer)
           /\ (tickPaused timer = true <-> intervalMs timer = 5000)
           /\ (tickPaused timer = false <-> intervalMs timer = 30000)).
Proof.
  split.
  - intros [H | H]; unfold pollingEffect; step; rewrite H; reflexivity.
  - intros t Htok Hne. apply String.eqb_neq in Hne.
    unfold pollingEffect. step. rewrite Htok, Hne.
    step_with fetchAll_run. step. step. cbn [ret outcome calls].
    split; [reflexivity|]. eexists. split; [reflexivity|].
    cbn [tickPaused intervalMs].
    destruct (isPausedInFuture (dateParse w) (dateNow w (tr ++ readingCalls))
                (lightRulesPausedUntil st)
              || isPausedInFuture (dateParse w) (dateNow w (tr ++ readingCalls))
                   (pumpRulesPausedUntil st));
      split; split; intros H; try reflexivity; discriminate H.
Qed.

(** ** The resume gate *)

(** X17. A pause field that is absent, empty, unparsable or not after now
    does not gate: the manual action runs at once. *)
Theorem gate_open_unless_pause_in_future
  (c : ActuatorClass) (a : Action) (w : World) (tr : list Call) (st : App) :
  pauseAbsentOrPast (dateParse w) (dateNow w tr) (pauseField c st) ->
  gate c a w tr st = runAction a w tr st.
Proof.
  intros H. apply isPausedInFuture_false in H.
  destruct c; cbn [gate pauseField] in *;
    [unfold runOrShowResumeLight | unfold runOrShowResumePump];
    step; unfold bind, pausedInFuture; cbn [outcome calls client];
    rewrite H; reflexivity.
Qed.

Lemma gate_open_unless_pause_in_future_witness :
  gate PumpClass HandlePumpOff pausedWorld [] (pausedApp "next week")
  = runAction HandlePumpOff pausedWorld [] (pausedApp "next week").
Proof.
  apply (gate_open_unless_pause_in_future PumpClass HandlePumpOff pausedWorld []
           (pausedApp "next week")).
  left. reflexivity.
Defined.

Lemma runPending_cases (w : World) (tr : list Call) (st : App) :
  runPending w tr st
  = match pendingResumeActionRef st with
    | Some a => runAction a w tr (setPendingResumeActionRef None st)
    | None => mkRun (Returned tt) tr (setPendingResumeActionRef None st)
    end.
Proof.
  unfold runPending. step. step.
  destruct (pendingResumeActionRef st); reflexivity.
Qed.

Lemma runPending_gate_state (w : World) (tr : list Call) (st : App) :
  resumeModal (client (runPending w tr st)) = resumeModal st
  /\ pendingResumeActionRef (client (runPending w tr st)) = None.
Proof.
  rewrite runPending_cases. destruct (pendingResumeActionRef st) as [a|].
  - destruct (runAction_footprint a w tr (setPendingResumeActionRef None st)) as [_ H].
    injection H as Hm Hp _ _ _. rewrite Hm, Hp. split; reflexivity.
  - split; reflexivity.
Qed.

(** X18. Every resolution of the resume dialog closes it.  Keep-paused, a
    resume that the device accepts, and dismissal all leave the pending
    cell empty, so a pending action runs at most once; a resume that fails
    leaves the cell as it was, behind the closed dialog. *)
Theorem resolutions_close_dialog (w : World) (tr : list Call) (st : App) :
  (forall resume,
     rm_open (resumeModal (client (confirmResumeModal resume w tr st))) = false)
  /\ rm_open (resumeModal (client (closeResumeModal w tr st))) = false
  /\ pendingResumeActionRef (client (confirmResumeModal false w tr st)) = None
  /\ pendingResumeActionRef (client (closeResumeModal w tr st)) = None
  /\ (forall p, api w tr (resumeCallOf st) = Resolves p ->
      pendingResumeActionRef (client (confirmResumeModal true w tr st)) = None)
  /\ (forall e, api w tr (resumeCallOf st) = Rejects e ->
      pendingResumeActionRef (client (confirmResumeModal true w tr st))
      = pendingResumeActionRef st).
Proof.
  assert (confirmResumeModal false w tr st = runPending w tr (closeModal st)) as Hkeep.
  { unfold confirmResumeModal. step. step. step. reflexivity. }
  assert (forall p, api w tr (resumeCallOf st) = Resolves p ->
          confirmResumeModal true w tr st
          = runPending w (tr ++ [resumeCallOf st; GetRules])%list
              (afterFetchRules w (tr ++ [resumeCallOf st])%list (closeModal st))) as Hres.
  { intros p Hp. unfold confirmResumeModal. step. step. rewrite resume_call_of.
    erewrite bind_returned; cycle 1.
    { apply tryCatch_returned.
      erewrite bind_returned; [|apply call_resolves; exact Hp].
      cbv beta. step_with fetchRules_run. reflexivity. }
    cbv beta. rewrite <- app_assoc. reflexivity. }
  assert (forall e, api w tr (resumeCallOf st) = Rejects e ->
          confirmResumeModal true w tr st
          = mkRun (Returned tt) (tr ++ [resumeCallOf st])%list
              (setError (Some (messageOr e "Failed to resume rules"))
                 (refused e (closeModal st))))
    as Hrej.
  { intros e He. unfold confirmResumeModal. step. step. rewrite resume_call_of.
    erewrite bind_returned; cycle 1.
    { erewrite tryCatch_threw; cycle 1.
      { apply bind_threw. apply call_rejects; exact He. }
      cbv beta. step. reflexivity. }
    reflexivity. }
  assert (forall h, rm_open (resumeModal (afterFetchRules w h (closeModal st))) = false)
    as Hclosed
    by (intros h; unfold afterFetchRules; destruct (api w h GetRules) as [e | q];
        [destruct (refused_cases e
                     (setRulesLoading true (setRulesError None (closeModal st))))
           as [E | E]; rewrite E; reflexivity
        | reflexivity]).
  split; [|split; [|split; [|split; [|split]]]].
  - intros [|].
    + destruct (api w tr (resumeCallOf st)) as [e | p] eqn:E.
      * rewrite (Hrej e eq_refl).
        destruct (refused_cases e (closeModal st)) as [E' | E']; cbn [client];
          rewrite E'; reflexivity.
      * rewrite (Hres p eq_refl).
        destruct (runPending_gate_state w (tr ++ [resumeCallOf st; GetRules])%list
                    (afterFetchRules w (tr ++ [resumeCallOf st])%list (closeModal st)))
          as [Hm _].
        rewrite Hm. apply Hclosed.
    + rewrite Hkeep. destruct (runPending_gate_state w tr (closeModal st)) as [Hm _].
      rewrite Hm. reflexivity.
  - reflexivity.
  - rewrite Hkeep. apply runPending_gate_state.
  - reflexivity.
  - intros p Hp. rewrite (Hres p Hp). apply runPending_gate_state.
  - intros e He. rewrite (Hrej e He).
    destruct (refused_cases e (closeModal st)) as [E' | E']; cbn [client];
      rewrite E'; reflexivity.
Qed.

(** ** Displaying a rule time *)

Lemma hhmm_chars (c1 c2 c3 c4 : ascii) :
  JS.is_digit c1 = true -> JS.is_digit c2 = true ->
  JS.is_digit c3 = true -> JS.is_digit c4 = true ->
  JS.trim (String c1 (String c2 (String ":" (String c3 (String c4 "")))))
  = String c1 (String c2 (String ":" (String c3 (String c4 ""))))
  /\ map JS.Number
       (JS.split ":" (String c1 (String c2 (String ":" (String c3 (String c4 ""))))))
     = [Some (10 * JS.digit_val c1 + JS.digit_val c2);
        Some (10 * JS.digit_val c3 + JS.digit_val c4)].
Proof.
  intros H1 H2 H3 H4.
  pose proof (digit_not_white _ H1) as W1. pose proof (digit_not_white _ H2) as W2.
  pose proof (digit_not_white _ H3) as W3. pose proof (digit_not_white _ H4) as W4.
  pose proof (digit_not_colon _ H1) as K1. pose proof (digit_not_colon _ H2) as K2.
  pose proof (digit_not_colon _ H3) as K3. pose proof (digit_not_colon _ H4) as K4.
  split.
  - unfold JS.trim. cbn [JS.trimStart]. rewrite W1.
    cbn [JS.trimEnd]. rewrite W1, W2, W3, W4, colon_not_white. reflexivity.
  - cbn [JS.split]. rewrite K1, K2, K3, K4. cbn [Ascii.eqb Bool.eqb map].
    unfold JS.Number, JS.trim.
    cbn [JS.trimStart]. rewrite W1, W3.
    cbn [JS.trimEnd]. rewrite W1, W2, W3, W4. cbn [andb].
    cbn [JS.digits]. rewrite H1, H2, H3, H4.
    repeat f_equal; lia.
Qed.

Lemma hhmm_parts (t : Time) :
  validTime t ->
  JS.trim (hhmm t) = hhmm t
  /\ matchesHourMinute (hhmm t) = true
  /\ map JS.Number (JS.split ":" (hhmm t)) = [Some (hour t); Some (minute t)].
Proof.
  intros [Hh Hm]. rewrite hhmm_shape.
  assert (0 <= hour t / 10 <= 9) as A1
    by (split; [apply Z.div_pos; lia | apply Z.div_le_upper_bound; lia]).
  assert (0 <= hour t mod 10 <= 9) as A2
    by (pose proof (Z.mod_pos_bound (hour t) 10); lia).
  assert (0 <= minute t / 10 <= 9) as A3
    by (split; [apply Z.div_pos; lia | apply Z.div_le_upper_bound; lia]).
  assert (0 <= minute t mod 10 <= 9) as A4
    by (pose proof (Z.mod_pos_bound (minute t) 10); lia).
  destruct (digitChar_spec _ A1) as [D1 V1]. destruct (digitChar_spec _ A2) as [D2 V2].
  destruct (digitChar_spec _ A3) as [D3 V3]. destruct (digitChar_spec _ A4) as [D4 V4].
  destruct (hhmm_chars _ _ _ _ D1 D2 D3 D4) as [Ht Hp].
  split; [exact Ht|]. split.
  - cbn [matchesHourMinute]. rewrite D1, D2, D3, D4. reflexivity.
  - rewrite Hp, V1, V2, V3, V4.
    pose proof (Z.div_mod (hour t) 10). pose proof (Z.div_mod (minute t) 10).
    repeat f_equal; lia.
Qed.

Lemma small_nat (n : Z) (bound : nat) :
  0 <= n < Z.of_nat bound -> exists k, n = Z.of_nat k /\ (k < bound)%nat.
Proof. intros H. exists (Z.to_nat n). lia. Qed.

Lemma minute_padded (m : Z) :
  0 <= m < 60 -> padStart 2 "0" (numberToString (Some m)) = twoDigits m.
Proof.
  intros H. destruct (small_nat m 60 H) as [k [-> Hk]].
  do 60 (destruct k as [|k]; [reflexivity|]). lia.
Qed.

(** X19. A valid stored time is shown with the hour on the 12-hour clock
    (0 and 12 both as 12), the minutes on two digits, and AM before noon,
    PM from noon on. *)
Theorem formatTime12h_valid (t : Time) :
  validTime t ->
  formatTime12h (Some (hhmm t))
  = (numberToString (Some (if hour t mod 12 =? 0 then 12 else hour t mod 12)%Z)
     ++ ":" ++ twoDigits (minute t) ++ " " ++ (if (hour t <? 12)%Z then "AM" else "PM"))%string
  /\ 1 <= (if hour t mod 12 =? 0 then 12 else hour t mod 12) <= 12.
Proof.
  intros Hv. destruct (hhmm_parts t Hv) as [Ht [Hm Hp]]. destruct Hv as [Hh Hmin].
  split.
  - unfold formatTime12h. rewrite hhmm_not_empty, Ht, Hm, Hp.
    cbn [orb negb nth_error JS.nullish].
    unfold remainder. cbn [Z.eqb]. rewrite Z.rem_mod_nonneg by lia.
    unfold JS.or_default, JS.lt. rewrite (minute_padded _ Hmin). reflexivity.
  - pose proof (Z.mod_pos_bound (hour t) 12).
    destruct (hour t mod 12 =? 0) eqn:E; [lia|]. apply Z.eqb_neq in E. lia.
Qed.

Lemma formatTime12h_valid_witness :
  formatTime12h (Some (hhmm (mkTime 0 5))) = "12:05 AM".
Proof.
  destruct (formatTime12h_valid (mkTime 0 5)) as [H _].
  - unfold validTime. cbn. lia.
  - exact H.
Defined.

Example formatTime12h_samples :
  formatTime12h (Some "12:00") = "12:00 PM"
  /\ formatTime12h (Some "13:07") = "1:07 PM"
  /\ formatTime12h (Some " 9:30 ") = "9:30 AM"
  /\ formatTime12h (Some "9am") = "9am"
  /\ formatTime12h (Some "") = ""
  /\ formatTime12h None = "".
Proof. repeat split; reflexivity. Qed.

Lemma allTimes_complete (t : Time) : validTime t -> In t allTimes.
Proof.
  intros [Hh Hm]. unfold allTimes. apply in_flat_map.
  exists (Z.to_nat (hour t)). split; [apply in_seq; lia|].
  apply in_map_iff. exists (Z.to_nat (minute t)). split; [|apply in_seq; lia].
  destruct t as [h m]. cbn [hour minute] in *. f_equal; lia.
Qed.

Lemma read12h_all :
  forallb
    (fun t =>
       match read12h (formatTime12h (Some (hhmm t))) with
       | Some t' => (hour t' =? hour t) && (minute t' =? minute t)
       | None => false
       end) allTimes = true.
Proof. vm_compute. reflexivity. Qed.

(** X20. Two different valid times are never shown the same. *)
Theorem formatTime12h_distinguishes (t1 t2 : Time) :
  validTime t1 -> validTime t2 ->
  formatTime12h (Some (hhmm t1)) = formatTime12h (Some (hhmm t2)) -> t1 = t2.
Proof.
  intros H1 H2 Heq.
  pose proof (proj1 (forallb_forall _ _) read12h_all) as Hall.
  pose proof (Hall t1 (allTimes_complete t1 H1)) as R1.
  pose proof (Hall t2 (allTimes_complete t2 H2)) as R2.
  cbv beta in R1, R2. rewrite Heq in R1.
  destruct (read12h (formatTime12h (Some (hhmm t2)))) as [t'|]; [|discriminate R1].
  apply andb_prop in R1, R2. destruct R1 as [A1 B1], R2 as [A2 B2].
  apply Z.eqb_eq in A1, B1, A2, B2.
  destruct t1 as [h1 m1], t2 as [h2 m2]. cbn [hour minute] in *. f_equal; lia.
Qed.

Lemma formatTime12h_distinguishes_witness : mkTime 0 5 = mkTime 0 5.
Proof.
  apply (formatTime12h_distinguishes (mkTime 0 5) (mkTime 0 5));
    [unfold validTime; cbn; lia | unfold validTime; cbn; lia | reflexivity].
Defined.

Example formatTime12h_noon_and_midnight_differ :
  formatTime12h (Some (hhmm (mkTime 0 0))) <> formatTime12h (Some (hhmm (mkTime 12 0))).
Proof. discriminate. Qed.

(** ** What a refused request says *)

Lemma string_of_uint_digits (d : Decimal.uint) : allDigits (NilEmpty.string_of_uint d) = true.
Proof. induction d; cbn; try reflexivity; exact IHd. Qed.

Lemma numberToString_digits (n : Z) :
  0 <= n ->
  exists c r, numberToString (Some n) = String c r
              /\ JS.is_digit c = true /\ allDigits r = true.
Proof.
  intros Hn. destruct n as [|p|p]; [| |lia].
  - exists "0"%char, "". repeat split; reflexivity.
  - cbn [numberToString Z.to_int NilZero.string_of_int].
    pose proof (Unsigned.to_uint_nonnil p) as Hnil.
    pose proof (string_of_uint_digits (Pos.to_uint p)) as Hd.
    unfold NilZero.string_of_uint.
    destruct (Pos.to_uint p) as [|d|d|d|d|d|d|d|d|d|d]; [destruct (Hnil eq_refl)|..];
      cbn [NilEmpty.string_of_uint allDigits] in *;
      eexists; eexists; (split; [reflexivity|]);
      apply andb_prop in Hd; exact Hd.
Qed.

Lemma dropDigits_run (ds : string) (c : ascii) (r : string) :
  allDigits ds = true -> JS.is_digit c = false ->
  dropDigits (ds ++ String c r) = String c r.
Proof.
  intros Hd Hc. induction ds as [|a ds IH].
  - cbn. rewrite Hc. reflexivity.
  - cbn in Hd. apply andb_prop in Hd. destruct Hd as [Ha Hds].
    cbn [append dropDigits]. rewrite Ha. apply IH, Hds.
Qed.

Lemma stripApiPrefix_message (n : Z) (detail : string) :
  0 <= n ->
  stripApiPrefix ("API " ++ numberToString (Some n) ++ ": " ++ detail) = detail.
Proof.
  intros Hn. destruct (numberToString_digits n Hn) as [c [r [E [Hc Hr]]]].
  rewrite E. unfold stripApiPrefix.
  cbn [append JS.startsWith Ascii.eqb Bool.eqb andb dropString]. rewrite Hc.
  cbv zeta. rewrite (dropDigits_run r ":" (String " " detail) Hr eq_refl).
  reflexivity.
Qed.

(** X21. When the device refuses a request (status 401, or a response that
    is not ok) with a non-negative status, [request] throws, and the Slack
    test shows what the device said without the ["API <status>: "] prefix:
    the trimmed body, or the status text when the body is empty, or "Test
    failed" when nothing is left. *)
Theorem slack_failure_shows_device_text
  {S T : Type} (cb : option (S -> S)) (res : HttpResponse T) (session : S) :
  0 <= http_status res ->
  http_status res = 401 \/ http_ok res = false ->
  exists e,
    snd (request cb (inr res) session) = Threw e
    /\ slackFailureText e = orElse (JS.trim (refusalDetail res)) "Test failed".
Proof.
  intros Hn Hrefused. unfold request, refusalDetail.
  destruct (http_status res =? 401) eqn:E401.
  - eexists. split; [reflexivity|]. unfold slackFailureText. cbn [messageOr].
    change ("API 401: " ++ orElse (http_text res) "Unauthorized")%string
      with ("API " ++ numberToString (Some 401) ++ ": "
            ++ orElse (http_text res) "Unauthorized")%string.
    rewrite stripApiPrefix_message by lia. reflexivity.
  - destruct Hrefused as [H | H]; [apply Z.eqb_eq in H; congruence|].
    rewrite H. cbn [negb]. eexists. split; [reflexivity|].
    unfold slackFailureText. cbn [messageOr].
    rewrite stripApiPrefix_message by exact Hn. reflexivity.
Qed.

Lemma slack_failure_shows_device_text_witness :
  exists e,
    snd (request (S := unit) None
           (inr (mkHttpResponse 502 false "Bad Gateway" " webhook rejected " None
                   (Returned tt))) tt)
    = Threw e
    /\ slackFailureText e = "webhook rejected".
Proof.
  apply (slack_failure_shows_device_text (S := unit) None
           (mkHttpResponse 502 false "Bad Gateway" " webhook rejected " None (Returned tt))
           tt).
  - cbn. lia.
  - right. reflexivity.
Defined.

(** ** Editing a rule *)

(** X22. Opening a rule that has an id for editing and saving it unchanged
    sends an update for that id, never a creation, carrying the rule's own
    fields: an empty end time goes as null and a missing enabled flag as
    true, neither of which changes how the evaluator reads the rule.  A
    form opened for a new rule always sends a creation. *)
Theorem edit_unchanged_sends_same_rule :
  (forall r, l_id r <> "" ->
     submitRuleRequest (openEditRule (Light r))
     = UpdateRule (l_id r)
         (LightPayload (start_time r) (normalizedEnd (end_time r)) (brightness_pct r)
            (JS.nullish (l_enabled r) true)))
  /\ (forall (r : LightRule) now,
      isTimeInRange now (start_time r) (normalizedEnd (end_time r))
      = isTimeInRange now (start_time r) (end_time r))
  /\ (forall r : LightRule,
      JS.nullish (l_enabled r) true = false <-> l_enabled r = Some false)
  /\ (forall r, p_id r <> "" ->
      submitRuleRequest (openEditRule (Pump r))
      = UpdateRule (p_id r)
          (PumpPayload (time r) (duration_minutes r) (JS.nullish (p_enabled r) true)))
  /\ (forall type,
      submitRuleRequest (openNewRule type) = CreateRule (ruleFormPayload (openNewRule type))).
Proof.
  split; [|split; [|split; [|split]]].
  - intros r Hid. apply String.eqb_neq in Hid.
    unfold submitRuleRequest, openEditRule, ruleFormPayload, normalizedEnd.
    cbn [f_editingId f_type f_start_time f_end_time f_use_range f_brightness_pct
         f_enabled]. rewrite Hid.
    destruct (end_time r) as [e|]; [|reflexivity].
    cbn [JS.nullish]. destruct (e =? "")%string; reflexivity.
  - intros r now. unfold normalizedEnd, isTimeInRange.
    destruct (end_time r) as [e|]; [|reflexivity].
    destruct (e =? "")%string eqn:E; [reflexivity|]. rewrite E. reflexivity.
  - intros r. destruct (l_enabled r) as [[|]|]; cbn; split; congruence.
  - intros r Hid. apply String.eqb_neq in Hid.
    unfold submitRuleRequest, openEditRule, ruleFormPayload.
    cbn [f_editingId f_type f_time f_duration_minutes f_enabled]. rewrite Hid.
    reflexivity.
  - intros []; reflexivity.
Qed.

Example edit_light_rule_with_empty_end :
  submitRuleRequest
    (openEditRule (Light (mkLightRule "r7" None (Some true) "21:00" (Some "") (Some 30))))
  = UpdateRule "r7" (LightPayload "21:00" None (Some 30) true).
Proof. reflexivity. Qed.

(** ** The brightness slider *)


(** A command refused with a 401: the failure is shown, the slider stays
    where it was put, and the session is gone. *)
Example slider_on_expired_session :
  handleLightBrightness 30 expiredSessionWorld [] (pausedApp "5000")
  = mkRun (Returned tt) [SetLightBrightness 30]
      (setError (Some "API 401: Unauthorized")
         (setToken None (setLightBrightnessSlider 30 (pausedApp "5000")))).
Proof. reflexivity. Qed.

(** ** The gate and its resolutions together *)

Lemma runAction_framed_dialog (m : ResumeModal) (a : Action) :
  framed (fun s => setPendingResumeActionRef None (setResumeModal m s)) (runAction a).
Proof.
  destruct a; unfold runAction, handleLightOn, handleLightOff, handleLightBrightness,
    handlePumpOn, handlePumpOff, fetchAll, reading, readStats, getCurrentCentralHHMM,
    newDate; cbv zeta; frame.
Qed.

Lemma confirm_keep_run (w : World) (tr : list Call) (st : App) :
  confirmResumeModal false w tr st = runPending w tr (closeModal st).
Proof. unfold confirmResumeModal. step. step. step. reflexivity. Qed.

Lemma gate_captures (c : ActuatorClass) (a : Action) (w : World) (tr : list Call) (st : App) :
  isPausedInFuture (dateParse w) (dateNow w tr) (pauseField c st) = true ->
  client (gate c a w tr st)
  = setPendingResumeActionRef (Some a)
      (setResumeModal (mkResumeModal true c (JS.nullish (pauseField c st) "")) st).
Proof.
  intros Hfut.
  destruct c; cbn [gate pauseField] in *;
    [unfold runOrShowResumeLight | unfold runOrShowResumePump];
    step; unfold bind, pausedInFuture; cbn [outcome calls client];
    rewrite Hfut; reflexivity.
Qed.

Lemma keep_after_capture (m : ResumeModal) (a : Action) (w : World) (tr : list Call) (st : App) :
  confirmResumeModal false w tr (setPendingResumeActionRef (Some a) (setResumeModal m st))
  = mkRun (outcome (runAction a w tr st)) (calls (runAction a w tr st))
      (setPendingResumeActionRef None
         (setResumeModal (mkResumeModal false (rm_type m) (rm_pausedUntil m))
            (client (runAction a w tr st)))).
Proof.
  rewrite confirm_keep_run, runPending_cases.
  apply (runAction_framed_dialog (mkResumeModal false (rm_type m) (rm_pausedUntil m))
           a w tr st).
Qed.

(** X24. While a class is paused, attempting a manual action and then
    choosing keep-paused requests exactly what the action would have
    requested without the gate and ends in the same state, with the dialog
    closed and the cell empty.  Attempting it and then dismissing the
    dialog requests nothing and changes nothing but the dialog. *)
Theorem keep_paused_is_transparent
  (c : ActuatorClass) (a : Action) (w : World) (tr : list Call) (st : App) :
  pauseInFuture (dateParse w) (dateNow w tr) (pauseField c st) ->
  confirmResumeModal false w tr (client (gate c a w tr st))
  = mkRun (outcome (runAction a w tr st)) (calls (runAction a w tr st))
      (setPendingResumeActionRef None
         (setResumeModal (mkResumeModal false c (JS.nullish (pauseField c st) ""))
            (client (runAction a w tr st))))
  /\ closeResumeModal w tr (client (gate c a w tr st))
     = mkRun (Returned tt) tr
         (setPendingResumeActionRef None
            (setResumeModal (mkResumeModal false c (JS.nullish (pauseField c st) "")) st)).
Proof.
  intros Hfut. apply isPausedInFuture_true in Hfut.
  split.
  - rewrite (gate_captures c a w tr st Hfut). apply keep_after_capture.
  - rewrite (gate_captures c a w tr st Hfut). reflexivity.
Qed.

Lemma keep_paused_is_transparent_witness :
  closeResumeModal pausedWorld []
    (client (gate LightClass (HandleLightBrightness 30) pausedWorld [] (pausedApp "5000")))
  = mkRun (Returned tt) []
      (setPendingResumeActionRef None
         (setResumeModal
            (mkResumeModal false LightClass
               (JS.nullish (pauseField LightClass (pausedApp "5000")) ""))
            (pausedApp "5000"))).
Proof.
  apply (keep_paused_is_transparent LightClass (HandleLightBrightness 30) pausedWorld []
           (pausedApp "5000")).
  exists 5000. split; [reflexivity | reflexivity].
Defined.

Example keep_paused_requests_what_the_action_requests :
  calls (confirmResumeModal false pausedWorld []
           (client (gate LightClass (HandleLightBrightness 30) pausedWorld []
                      (pausedApp "5000"))))
  = SetLightBrightness 30 :: readingCalls.
Proof. vm_compute. reflexivity. Qed.

(** ** Pauses and the passing of time *)

(** X25. Expiry is final: a pause field that is not in the future at some
    instant is not in the future at any later instant, and one that is in
    the future was in the future at every earlier instant. *)
Theorem pause_expiry_is_final
  (parse : string -> option Z) (now later : Z) (p : option string) :
  now <= later ->
  (isPausedInFuture parse now p = false -> isPausedInFuture parse later p = false)
  /\ (isPausedInFuture parse later p = true -> isPausedInFuture parse now p = true).
Proof.
  intros Hle. unfold isPausedInFuture.
  destruct p as [s|]; [|split; intros H; exact H].
  destruct (s =? "")%string; [split; intros H; exact H|].
  unfold JS.gt, JS.lt. destruct (parse s) as [t|]; [|split; intros H; exact H].
  split; intros H.
  - apply Z.ltb_ge in H. apply Z.ltb_ge. lia.
  - apply Z.ltb_lt in H. apply Z.ltb_lt. lia.
Qed.

Lemma pause_expiry_is_final_witness :
  isPausedInFuture sampleParse 2000 (Some "5000") = true.
Proof.
  destruct (pause_expiry_is_final sampleParse 2000 3000 (Some "5000")) as [_ H].
  - lia.
  - apply H. reflexivity.
Defined.

(** ** Durations typed as whole numbers *)

Lemma typed_minutes_all :
  forallb
    (fun k =>
       (lightOverrideMinutes (numberToString (Some (Z.of_nat k))) =? Z.of_nat k)
       && ((120 <? Z.of_nat k)
           || (pumpManualMinutes (numberToString (Some (Z.of_nat k))) =? Z.of_nat k)))
    (seq 1 1440) = true.
Proof. vm_compute. reflexivity. Qed.

(** X26. A whole number of minutes typed within the bounds is used as it
    is: 1 to 1440 for a light override, 1 to 120 for manual watering. *)
Theorem typed_minutes_in_range_are_kept (n : Z) :
  1 <= n <= 1440 ->
  lightOverrideMinutes (numberToString (Some n)) = n
  /\ (n <= 120 -> pumpManualMinutes (numberToString (Some n)) = n).
Proof.
  intros Hn.
  assert (In (Z.to_nat n) (seq 1 1440)) as Hin by (apply in_seq; lia).
  pose proof (proj1 (forallb_forall _ _) typed_minutes_all (Z.to_nat n) Hin) as H.
  cbv beta in H. rewrite Z2Nat.id in H by lia.
  apply andb_prop in H. destruct H as [Hl Hp].
  apply Z.eqb_eq in Hl. split; [exact Hl|].
  intros H120. apply orb_prop in Hp. destruct Hp as [Hp | Hp].
  - apply Z.ltb_lt in Hp. lia.
  - apply Z.eqb_eq, Hp.
Qed.

Lemma typed_minutes_in_range_are_kept_witness :
  lightOverrideMinutes (numberToString (Some 90)) = 90.
Proof.
  destruct (typed_minutes_in_range_are_kept 90) as [H _]; [lia | exact H].
Defined.

(** ** Which refusals log the user out *)





(** A 401 on the first read of a refresh logs the user out, and the
    refresh still reports no failure; a device that is merely unreachable
    leaves the session alone. *)
Example refresh_on_expired_session :
  token (client (fetchAll expiredSessionWorld [] (pausedApp "5000"))) = None
  /\ error (client (fetchAll expiredSessionWorld [] (pausedApp "5000"))) = None
  /\ token (client (fetchAll unreachableWorld [] (pausedApp "5000"))) = Some "token".
Proof. repeat split; reflexivity. Qed.
